(** * Proxy-bonus.py: a caching, prefetching HTTP proxy

    Shallow embedding of the pure core of [Proxy-bonus.py] (cache keys,
    freshness of a cached entry, header extraction, the cache write path,
    prefetch URL resolution, origin resolution and the start-up check of the
    command line) and the properties the specification states about it.

    Python values are embedded as follows.
    - A [str] is a [string]; every character stands for one code point below
      256.  On that range the regular-expression class [\d] and the built-in
      [int] know the digits [0]..[9] only.
    - A [dict] from [str] to [str] is a [gmap string string].
    - An [int] is a [Z].
    - Exceptions are explicit: a function that can raise returns a [result].
    - Library calls whose behaviour is not fixed by the program text (float
      arithmetic, the e-mail date parser, [urlparse], the locale codec used by
      text-mode files) are operations of the interface [PyRuntime]. *)

From Stdlib Require Import ZArith Ascii String List Lia DecimalString.
From stdpp Require Import base option list gmap strings.

Set Default Proof Using "Type".

(** ** String primitives of Python, as the program uses them *)

Module PyStr.

Definition CR : ascii := "013"%char.
Definition LF : ascii := "010"%char.

(** The two-byte line terminator of HTTP. *)
Definition CRLF : string := String CR (String LF "").
Definition CRLFCRLF : string := CRLF +:+ CRLF.

(** [s[len(p):]] when [s.startswith(p)], nothing otherwise. *)
Fixpoint strip_prefix (p s : string) : option string :=
  match p, s with
  | "", _ => Some s
  | String a p', String b s' => if Ascii.eqb a b then strip_prefix p' s' else None
  | String _ _, "" => None
  end.

(** [s.startswith(p)] *)
Definition startswith (p s : string) : bool := bool_decide (is_Some (strip_prefix p s)).

(** [s.split(sep, 1)] when [sep] occurs in [s]: the text before the first
    occurrence and the text after it. *)
Fixpoint split_once (sep s : string) : option (string * string) :=
  match strip_prefix sep s with
  | Some r => Some ("", r)
  | None =>
      match s with
      | "" => None
      | String c s' =>
          match split_once sep s' with
          | Some (a, b) => Some (String c a, b)
          | None => None
          end
      end
  end.

(** [sub in s] *)
Definition contains (sub s : string) : bool := bool_decide (is_Some (split_once sub s)).

(** [s.split(sep)] for a non-empty [sep].  Every cut removes at least one
    character, so [length s] cuts are enough. *)
Fixpoint split_go (fuel : nat) (sep s : string) : list string :=
  match fuel with
  | O => [s]
  | S n =>
      match split_once sep s with
      | Some (a, b) => a :: split_go n sep b
      | None => [s]
      end
  end.

Definition split (sep s : string) : list string := split_go (String.length s) sep s.

(** [sep.join(l)] *)
Fixpoint join (sep : string) (l : list string) : string :=
  match l with
  | [] => ""
  | [x] => x
  | x :: l' => x +:+ sep +:+ join sep l'
  end.

Definition code (c : ascii) : nat := nat_of_ascii c.

Definition is_digit (c : ascii) : bool := (48 <=? code c)%nat && (code c <=? 57)%nat.
Definition is_upper (c : ascii) : bool := (65 <=? code c)%nat && (code c <=? 90)%nat.
Definition is_lower (c : ascii) : bool := (97 <=? code c)%nat && (code c <=? 122)%nat.

Definition digit_val (c : ascii) : Z := Z.of_nat (code c) - 48.

(** The characters [int] skips around a number: the C white space and, of the
    code points 128..255, NEL (133) and the no-break space (160). *)
Definition int_space (c : ascii) : bool :=
  ((9 <=? code c)%nat && (code c <=? 13)%nat)
  || (code c =? 32)%nat || (code c =? 133)%nat || (code c =? 160)%nat.

Fixpoint lstrip (s : string) : string :=
  match s with
  | "" => ""
  | String c s' => if int_space c then lstrip s' else s
  end.

Definition strip (s : string) : string := String.rev (lstrip (String.rev (lstrip s))).

(** Decimal digits with single underscores between them; [pending] is false
    where a digit is required (at the start and after an underscore). *)
Fixpoint digits_value (acc : Z) (pending : bool) (s : string) : option Z :=
  match s with
  | "" => if pending then Some acc else None
  | String c s' =>
      if is_digit c then digits_value (10 * acc + digit_val c) true s'
      else if Ascii.eqb c "_" && pending then digits_value acc false s'
      else None
  end.

(** The interpreter's default bound on the number of digit characters of a
    decimal literal ([sys.int_info.default_max_str_digits]); the program never
    changes it. *)
Definition int_max_str_digits : nat := 4300.

(** The digit characters of a text; sign, underscores and white space do not
    count, leading zeros do. *)
Fixpoint count_digits (s : string) : nat :=
  match s with
  | "" => 0
  | String c s' => if is_digit c then S (count_digits s') else count_digits s'
  end.

(** [int(s)]; [None] is the [ValueError] of a malformed literal or of a
    literal with more digits than the bound. *)
Definition py_int (s : string) : option Z :=
  if (count_digits s <=? int_max_str_digits)%nat then
    match strip s with
    | String "+" r => digits_value 0 false r
    | String "-" r => Z.opp <$> digits_value 0 false r
    | t => digits_value 0 false t
    end
  else None.

(** The longest prefix of decimal digits: what [\d+] takes. *)
Fixpoint take_digits (s : string) : string :=
  match s with
  | "" => ""
  | String c s' => if is_digit c then String c (take_digits s') else ""
  end.

(** What a text-mode [read()] does to line ends ([newline=None]): each of
    CR LF, a lone CR and LF comes out as LF. *)
Fixpoint universal_newlines (s : string) : string :=
  match s with
  | "" => ""
  | String c s' =>
      if Ascii.eqb c CR then
        match s' with
        | String d s'' => if Ascii.eqb d LF then universal_newlines s' else String LF (universal_newlines s')
        | "" => String LF ""
        end
      else String c (universal_newlines s')
  end.

(** What a text-mode [write()] does to line ends: LF becomes [linesep]. *)
Fixpoint write_newlines (linesep s : string) : string :=
  match s with
  | "" => ""
  | String c s' =>
      if Ascii.eqb c LF then linesep +:+ write_newlines linesep s'
      else String c (write_newlines linesep s')
  end.

(** [s[n:]] *)
Fixpoint drop (n : nat) (s : string) : string :=
  match n, s with
  | O, _ => s
  | S n', String _ s' => drop n' s'
  | S _, "" => ""
  end.

End PyStr.

Import PyStr.

(** ** Exceptions, results and the runtime interface *)

Inductive exn : Type :=
  | ValueError
  | TypeError
  | IndexError
  | FileNotFoundError
  | UnicodeError
  | OverflowError.

Inductive result (A : Type) : Type :=
  | Ok (a : A)
  | Raise (e : exn).

Arguments Ok {A} a.
Arguments Raise {A} e.

#[global] Instance result_ret : MRet result := fun A a => Ok a.
#[global] Instance result_bind : MBind result :=
  fun A B f m => match m with Ok a => f a | Raise e => Raise e end.

(** A library call that signals failure with [e]. *)
Definition or_raise {A : Type} (e : exn) (o : option A) : result A :=
  match o with
  | Some a => Ok a
  | None => Raise e
  end.

(** [try: body / except <caught>: handler] *)
Definition try_except {A : Type} (body : result A) (caught : exn -> bool) (handler : result A) : result A :=
  match body with
  | Ok a => Ok a
  | Raise e => if caught e then handler else Raise e
  end.

(** A [datetime.datetime]: aware (an instant of the UTC time line) or naive
    (a calendar reading that carries no zone), counted in microseconds. *)
Inductive datetime : Type :=
  | Aware (instant : Z)
  | Naive (reading : Z).

(** [a < b] on datetimes: an aware and a naive value cannot be ordered. *)
Definition datetime_lt (a b : datetime) : result bool :=
  match a, b with
  | Aware x, Aware y => Ok (x <? y)%Z
  | Naive x, Naive y => Ok (x <? y)%Z
  | _, _ => Raise TypeError
  end.

(** The fields of [urlparse(...)] the program reads. *)
Record ParseResult : Type := { scheme : string; netloc : string; path : string }.

(** Library behaviour the program relies on and does not define.  For the
    calls that return an option, [None] stands for the [ValueError] the call
    raises; the date parser ends with a date or with any exception. *)
Class PyRuntime : Type := {
  float : Type;
  (** [float(s)] *)
  float_of_str : string -> option float;
  (** [str(x)], as an f-string formats it *)
  str_of_float : float -> string;
  (** [x - y] on floats *)
  float_sub : float -> float -> float;
  (** [x < n] for a float [x] and an int [n] *)
  float_lt_int : float -> Z -> bool;
  (** [email.utils.parsedate_to_datetime] *)
  parsedate_to_datetime : string -> result datetime;
  (** [urllib.parse.urlparse] *)
  urlparse : string -> option ParseResult;
  (** the codec of text-mode files, and [os.linesep] *)
  decode_locale : string -> option string;
  encode_locale : string -> option string;
  linesep : string
}.

(** The two clock readings [is_cache_valid] can take. *)
Record clock `{PyRuntime} : Type := {
  (** [datetime.datetime.now(datetime.timezone.utc)], always aware *)
  utc_now : Z;
  (** [time.time()] *)
  time_time : float
}.

(** ** The program *)

Definition CACHE_DIR : string := "proxy_cache/".

Definition is_alnum (c : ascii) : bool := is_lower c || is_upper c || is_digit c.

(** [re.sub] of the class of characters outside a-z, A-Z and 0-9 by an
    underscore. *)
Fixpoint sub_non_alnum (url : string) : string :=
  match url with
  | "" => ""
  | String c url' => String (if is_alnum c then c else "_"%char) (sub_non_alnum url')
  end.

Definition generate_cache_filename (url : string) : string :=
  CACHE_DIR +:+ sub_non_alnum url.

(** [re.search] of [max-age=(\d+)]: group 1 of the leftmost match. *)
Fixpoint max_age_match (s : string) : option string :=
  match
    match strip_prefix "max-age=" s with
    | Some r => match take_digits r with "" => None | ds => Some ds end
    | None => None
    end
  with
  | Some ds => Some ds
  | None =>
      match s with
      | "" => None
      | String _ s' => max_age_match s'
      end
  end.

Definition type_or_value_error (e : exn) : bool :=
  match e with
  | TypeError | ValueError => true
  | _ => false
  end.

Section Freshness.
Context `{PyRuntime}.

Definition is_cache_valid (now : clock) (headers : gmap string string) : result bool :=
  match headers !! "Expires" with
  | Some expires_str =>
      try_except
        (expires_time ← parsedate_to_datetime expires_str;
         datetime_lt (Aware (utc_now now)) expires_time)
        type_or_value_error
        (Ok false)
  | None =>
      match headers !! "Cache-Control" with
      | Some cache_control =>
          if contains "no-cache" cache_control || contains "no-store" cache_control
          then Ok false
          else
            match max_age_match cache_control with
            | Some digits =>
                max_age ← or_raise ValueError (py_int digits);
                match headers !! "cache-timestamp" with
                | Some stamp =>
                    cache_time ← or_raise ValueError (float_of_str stamp);
                    Ok (float_lt_int (float_sub (time_time now) cache_time) max_age)
                | None => Ok false
                end
            | None => Ok false
            end
      | None => Ok false
      end
  end.

End Freshness.

(** ** The cache store: files, header extraction and the write path *)

(** One header line of the loop of [extract_headers_from_cache]:
    a line that holds a colon followed by a space gives an entry, cut at the
    first such separator; a later entry replaces an earlier one of its name. *)
Definition add_header_line (headers : gmap string string) (line : string) : gmap string string :=
  if contains ": " line then
    match split_once ": " line with
    | Some (name, value) => <[name := value]> headers
    | None => headers
    end
  else headers.

(** The header lines of a head section: every line but the status line. *)
Definition header_lines (header_section : string) : list string :=
  tail (split CRLF header_section).

(** [extract_headers_from_cache] from the point where [content] has been read. *)
Definition extract_headers_from_content (content : string) : gmap string string :=
  match split_once CRLFCRLF content with
  | Some (header_section, _) => foldl add_header_line ∅ (header_lines header_section)
  | None => ∅
  end.

Section CacheStore.
Context `{PyRuntime}.

(** Reading a whole file opened in text mode (mode r, and the read of an r+
    file): the bytes are decoded with the locale codec and line ends are
    normalised. *)
Definition read_text (files : gmap string string) (name : string) : result string :=
  match files !! name with
  | None => Raise FileNotFoundError
  | Some bytes =>
      text ← or_raise UnicodeError (decode_locale bytes);
      Ok (universal_newlines text)
  end.

(** [f.seek(0); f.write(text)] on a file holding [old]: the encoded text
    replaces the first bytes and what lies beyond it stays. *)
Definition overwrite_text (old text : string) : result string :=
  bytes ← or_raise UnicodeError (encode_locale (write_newlines linesep text));
  Ok (bytes +:+ drop (String.length bytes) old).

Definition extract_headers_from_cache (files : gmap string string) (cache_filename : string) : gmap string string :=
  match read_text files cache_filename with
  | Ok content => extract_headers_from_content content
  | Raise _ => ∅
  end.

(** The write path, as [handle_client_request] (lines 351-364) and
    [prefetch_resource] (lines 215-228) both have it: the raw response is
    written in binary mode, then the file is read back as text and, when it
    splits at the blank line, rewritten with the time stamp added.  The files
    are returned together with the outcome, since the first write stays
    when the second pass raises.  The store is a map from names to bytes:
    this is the write path for a name under which the operating system lets
    the file be created. *)
Definition save_response (files : gmap string string) (cache_filename response : string) (stamp : float) : gmap string string * result () :=
  let files1 := <[cache_filename := response]> files in
  match read_text files1 cache_filename with
  | Raise e => (files1, Raise e)
  | Ok content =>
      match split_once CRLFCRLF content with
      | Some (header, body) =>
          let header' := header +:+ CRLF +:+ "cache-timestamp: " +:+ str_of_float stamp in
          match overwrite_text response (header' +:+ CRLFCRLF +:+ body) with
          | Ok bytes => (<[cache_filename := bytes]> files1, Ok ())
          | Raise e => (files1, Raise e)
          end
      | None => (files1, Ok ())
      end
  end.

End CacheStore.

(** ** The prefetch scheduler *)

Definition DQUOTE : ascii := "034"%char.
Definition is_quote (c : ascii) : bool := Ascii.eqb c "'" || Ascii.eqb c DQUOTE.

(** A run of characters that are not quotes, and the quote that ends it:
    the run and what follows the quote. *)
Fixpoint until_quote (s : string) : option (string * string) :=
  match s with
  | "" => None
  | String c s' =>
      if is_quote c then Some ("", s')
      else
        match until_quote s' with
        | Some (v, r) => Some (String c v, r)
        | None => None
        end
  end.

(** One match of the attribute pattern at the start of [s]: the attribute
    name, an equals sign, a quote of either kind, one or more characters that
    are not quotes (group 1) and a quote of either kind.  The result is
    group 1 and the text after the match. *)
Definition match_attr (attr s : string) : option (string * string) :=
  match strip_prefix (attr +:+ "=") s with
  | Some (String q r) =>
      if is_quote q then
        match until_quote r with
        | Some (String c v, rest) => Some (String c v, rest)
        | _ => None
        end
      else None
  | _ => None
  end.

(** [pattern.findall(s)]: matches are taken left to right and do not overlap. *)
Fixpoint findall_go (fuel : nat) (attr s : string) : list string :=
  match fuel with
  | O => []
  | S n =>
      match match_attr attr s with
      | Some (v, rest) => v :: findall_go n attr rest
      | None =>
          match s with
          | "" => []
          | String _ s' => findall_go n attr s'
          end
      end
  end.

Definition findall (attr s : string) : list string := findall_go (S (String.length s)) attr s.

(** The test that skips a candidate. *)
Definition skipped (resource : string) : bool :=
  startswith "javascript:" resource || bool_decide (resource = "#") || bool_decide (resource = "").

(** The URL built for a candidate that is not skipped. *)
Definition resource_url (protocol base_hostname base_url resource : string) : string :=
  if startswith "http" resource then resource
  else if startswith "//" resource then protocol +:+ ":" +:+ resource
  else if startswith "/" resource then protocol +:+ "://" +:+ base_hostname +:+ resource
  else
    let base_path := join "/" (removelast (split "/" base_url)) +:+ "/" in
    base_path +:+ resource.

(** The loop over the candidates: the URLs handed to prefetch threads. *)
Definition prefetch_tasks (protocol base_hostname base_url : string) (all_resources : list string) : list string :=
  resource_url protocol base_hostname base_url <$> filter (fun r => skipped r = false) all_resources.

Section Prefetch.
Context `{PyRuntime}.

(** [prefetch_resources]: the result is the list of URLs for which a thread
    is started.  [list(set(...))] fixes no order; one order without
    repetitions stands for it. *)
Definition prefetch_resources (html_content base_url : string) : result (list string) :=
  parsed_url ← or_raise ValueError (urlparse base_url);
  let base_hostname := netloc parsed_url in
  let protocol := if bool_decide (scheme parsed_url = "") then "http" else scheme parsed_url in
  let hrefs := findall "href" html_content in
  let srcs := findall "src" html_content in
  let all_resources := remove_dups (hrefs ++ srcs) in
  Ok (prefetch_tasks protocol base_hostname base_url all_resources).

End Prefetch.

(** ** The origin resolver *)

Definition extract_server_info (url : string) : string * Z * string :=
  let url := match split_once "://" url with Some (_, r) => r | None => url end in
  let '(server_info, path) :=
    match split_once "/" url with
    | Some (a, b) => (a, "/" +:+ b)
    | None => (url, "/")
    end in
  match split_once ":" server_info with
  | Some (hostname, port_str) =>
      let port := match py_int port_str with Some p => p | None => 80%Z end in
      (hostname, port, path)
  | None => (server_info, 80%Z, path)
  end.

(** The target [handle_client_request] hands to [extract_server_info]
    (lines 280-291): the second word of the first line, without a leading
    [http://].  [None] is the silent return on an empty first line. *)
Definition request_target (request : string) : result (option string) :=
  match split (String LF "") request with
  | first_line :: _ =>
      if bool_decide (first_line = "") then Ok None
      else
        match split " " first_line with
        | _ :: url :: _ =>
            Ok (Some (if startswith "http://" url then drop 7 url else url))
        | _ => Raise IndexError
        end
  | [] => Raise IndexError
  end.

(** ** Start-up *)

(** The two output streams of the process. *)
Record console : Type := { stdout : list string; stderr : list string }.

(** [print(msg)] writes to standard output. *)
Definition print (msg : string) (c : console) : console :=
  {| stdout := stdout c ++ [msg]; stderr := stderr c |}.

(** How [main] leaves its start-up phase. *)
Inductive startup : Type :=
  | Exit (status : Z)
  | Uncaught (e : exn)
  | Listen (port : Z).

(** [main] up to the point where the listening socket is set up. *)
Definition main (argv : list string) (c : console) : startup * console :=
  if bool_decide (length argv <= 1) then
    (Exit 1, print "Usage: python Proxy-bonus.py <port>" c)
  else
    match py_int (nth 1 argv "") with
    | Some port => (Listen port, c)
    | None => (Uncaught ValueError, c)
    end.

(** ** A runtime for worked examples

    The theorems below hold for every [PyRuntime].  Where a statement has
    premises, they are shown to be satisfiable on this small instance: floats
    are whole numbers of seconds, four [Expires] values are known to the date
    parser (with the results the library gives for them: an aware date for
    the zone GMT, a date without zone for the zone -0000, [OverflowError] for
    a zone offset beyond the machine integers), URLs have the plain form
    [scheme://netloc/path], and the locale codec is the identity. *)

Definition demo_parsedate (s : string) : result datetime :=
  if bool_decide (s = "Thu, 01 Jan 2099 00:00:00 GMT") then Ok (Aware 4070908800000000)
  else if bool_decide (s = "Thu, 01 Jan 1970 00:00:10 GMT") then Ok (Aware 10000000)
  else if bool_decide (s = "Thu, 01 Jan 2099 00:00:00 -0000") then Ok (Naive 4070908800000000)
  else if bool_decide (s = "Thu, 01 Jan 2099 00:00:00 +99999999999999") then Raise OverflowError
  else Raise ValueError.

Definition demo_urlparse (url : string) : option ParseResult :=
  match split_once "://" url with
  | Some (sch, rest) =>
      match split_once "/" rest with
      | Some (host, p) => Some {| scheme := sch; netloc := host; path := "/" +:+ p |}
      | None => Some {| scheme := sch; netloc := rest; path := "" |}
      end
  | None => Some {| scheme := ""; netloc := ""; path := url |}
  end.

#[local] Instance demo_runtime : PyRuntime := {|
  float := Z;
  float_of_str := py_int;
  str_of_float := fun x => DecimalString.NilZero.string_of_int (Z.to_int x);
  float_sub := Z.sub;
  float_lt_int := Z.ltb;
  parsedate_to_datetime := demo_parsedate;
  urlparse := demo_urlparse;
  decode_locale := Some;
  encode_locale := Some;
  linesep := String LF ""
|}.

Definition demo_clock (seconds : Z) : clock :=
  {| utc_now := seconds * 1000000; time_time := seconds |}.

(** The response of the round-trip property of the specification. *)
Definition plain_response : string :=
  "HTTP/1.1 200 OK" +:+ CRLF +:+ "Content-Type: text/plain" +:+ CRLFCRLF +:+ "hello".

(** ** Vocabulary of the statements *)

(** [s] begins with [p]. *)
Definition has_prefix (p s : string) : Prop := exists r, s = p +:+ r.

(** [sub] occurs in [s]. *)
Definition occurs_in (sub s : string) : Prop := exists a b, s = a +:+ sub +:+ b.

(** The characters of a string. *)
Fixpoint chars (s : string) : list ascii :=
  match s with
  | "" => []
  | String c s' => c :: chars s'
  end.

(** The usage message of [main]. *)
Definition usage : string := "Usage: python Proxy-bonus.py <port>".

(** The value of a run of decimal digits. *)
Definition decimal (ds : string) : Z :=
  fold_left (fun acc c => (10 * acc + digit_val c)%Z) (chars ds) 0%Z.

(** The target once a scheme separator, wherever it stands, and all that
    precedes it are dropped: the first step of [extract_server_info]. *)
Definition after_scheme (url : string) : string :=
  match split_once "://" url with
  | Some (_, r) => r
  | None => url
  end.

(** Header mappings, a cached content and a page for the worked examples. *)
Definition expires_headers : gmap string string :=
  {[ "Expires" := "Thu, 01 Jan 1970 00:00:10 GMT"; "Cache-Control" := "max-age=60" ]}.

Definition max_age_headers (stamp : string) : gmap string string :=
  {[ "Cache-Control" := "public, max-age=60"; "cache-timestamp" := stamp ]}.

Definition sample_content : string :=
  "HTTP/1.1 200 OK" +:+ CRLF +:+ "Name:value" +:+ CRLF
  +:+ "Content-Type: text/plain" +:+ CRLFCRLF +:+ "hello".

Definition sample_html : string :=
  "<a href='/c.png'> <script src='//cdn.com/d.js'> <img src='e.png'> "
  +:+ "<a href='http://x.com/f'> <a href='javascript:void(0)'> <a href='#'>".

(** ** Further parts of the request handler and of the prefetcher *)

(** [s.replace(old, new)] for a non-empty [old]: the occurrences are taken
    left to right and do not overlap. *)
Fixpoint replace_go (fuel : nat) (old new s : string) : string :=
  match fuel with
  | O => s
  | S n =>
      match split_once old s with
      | Some (a, b) => a +:+ new +:+ replace_go n old new b
      | None => s
      end
  end.

Definition replace (old new s : string) : string :=
  replace_go (String.length s) old new s.

(** The request [handle_client_request] sends to the origin (line 297):
    every occurrence of the first line is replaced by a [GET] line for the
    path. *)
Definition remote_request (request first_line path : string) : string :=
  replace first_line ("GET " +:+ path +:+ " HTTP/1.1") request.

Section Dispatch.
Context `{PyRuntime}.

(** The cache test of [handle_client_request] (lines 301-309): the value of
    [use_cache] after it.  A file exists when the store maps its name. *)
Definition use_cache (now : clock) (files : gmap string string) (cache_filename : string) : result bool :=
  match files !! cache_filename with
  | Some _ =>
      let cache_headers := extract_headers_from_cache files cache_filename in
      match is_cache_valid now cache_headers with
      | Ok valid => Ok (if valid then true else false)
      | Raise e => Raise e
      end
  | None => Ok false
  end.

(** Host, port and path as [prefetch_resource] derives them from its URL
    (lines 178-187).  The integer conversion of the port has no handler of
    its own here. *)
Definition prefetch_target (url : string) : result (string * Z * string) :=
  parsed_url ← or_raise ValueError (urlparse url);
  let hostname := netloc parsed_url in
  let url_path := if bool_decide (path parsed_url = "") then "/" else path parsed_url in
  if contains ":" hostname then
    match split_once ":" hostname with
    | Some (hostname, port) =>
        port ← or_raise ValueError (py_int port);
        Ok (hostname, port, url_path)
    | None => Ok (hostname, 80%Z, url_path)
    end
  else Ok (hostname, 80%Z, url_path).

(** The second pass of the write path alone (lines 356-364 and 220-228),
    applied to the store as it stands: the file is opened for reading and
    writing in text mode, read, and rewritten with the time stamp when its
    text splits at the blank line. *)
Definition add_cache_timestamp (files : gmap string string) (cache_filename : string) (stamp : float) : gmap string string * result () :=
  match read_text files cache_filename with
  | Raise e => (files, Raise e)
  | Ok content =>
      match split_once CRLFCRLF content with
      | Some (header, body) =>
          let header' := header +:+ CRLF +:+ "cache-timestamp: " +:+ str_of_float stamp in
          match files !! cache_filename with
          | Some old =>
              match overwrite_text old (header' +:+ CRLFCRLF +:+ body) with
              | Ok bytes => (<[cache_filename := bytes]> files, Ok ())
              | Raise e => (files, Raise e)
              end
          | None => (files, Ok ())
          end
      | None => (files, Ok ())
      end
  end.

End Dispatch.

(** Two characters are taken for one another by the cache key. *)
Definition key_alike (a b : ascii) : Prop :=
  a = b \/ (is_alnum a = false /\ is_alnum b = false).

(** How the port comes from the text between host and path. *)
Definition port_from (port_part : string) (port : Z) : Prop :=
  (port_part = "" /\ port = 80%Z)
  \/ exists port_str, port_part = ":" +:+ port_str
                      /\ port = default 80%Z (py_int port_str).

(** A content with a repeated header, a request and a content with bare line
    feeds for the worked examples. *)
Definition repeated_header_content : string :=
  "HTTP/1.1 200 OK" +:+ CRLF +:+ "Cache-Control: no-store" +:+ CRLF
  +:+ "Cache-Control: max-age=60" +:+ CRLFCRLF +:+ "hello".

Definition sample_request : string :=
  "POST http://example.com/a HTTP/1.0" +:+ CRLF +:+ "Host: example.com" +:+ CRLFCRLF.

Definition bare_lf_content : string :=
  "HTTP/1.1 200 OK" +:+ String LF "Content-Type: text/html" +:+ String LF (String LF "hello").


(** The time a date stands for when it is read on the UTC time line. *)
Definition datetime_value (d : datetime) : Z :=
  match d with
  | Aware t => t
  | Naive t => t
  end.

(** A run of nines, and header mappings for further worked examples. *)
Fixpoint nines (n : nat) : string :=
  match n with
  | O => ""
  | S n' => String "9" (nines n')
  end.

Definition zoneless_headers : gmap string string :=
  {[ "Expires" := "Thu, 01 Jan 2099 00:00:00 -0000" ]}.

Definition long_max_age_headers : gmap string string :=
  {[ "Cache-Control" := "max-age=" +:+ nines 4301 ]}.

(** * Properties *)

Lemma sapp_nil_l (s : string) : "" +:+ s = s.
Proof. reflexivity. Qed.

Lemma sapp_cons (c : ascii) (s t : string) : String c s +:+ t = String c (s +:+ t).
Proof. reflexivity. Qed.

Lemma sapp_nil_r (s : string) : s +:+ "" = s.
Proof. induction s as [|c s IH]; [reflexivity|]. rewrite sapp_cons. by f_equal. Qed.

Lemma sapp_assoc (s t u : string) : (s +:+ t) +:+ u = s +:+ t +:+ u.
Proof.
  induction s as [|c s IH]; [reflexivity|].
  rewrite !sapp_cons. by f_equal.
Qed.

Lemma chars_app (s t : string) : chars (s +:+ t) = chars s ++ chars t.
Proof.
  induction s as [|c s IH]; [reflexivity|].
  rewrite sapp_cons. simpl. by f_equal.
Qed.

Lemma strip_prefix_Some (p s r : string) : strip_prefix p s = Some r <-> s = p +:+ r.
Proof.
  revert s. induction p as [|a p IH]; intros s.
  - rewrite sapp_nil_l. destruct s; simpl; split; congruence.
  - destruct s as [|b s]; simpl.
    + rewrite sapp_cons. split; discriminate.
    + rewrite sapp_cons. destruct (Ascii.eqb_spec a b) as [->|Hne].
      * rewrite IH. split; [intros ->; reflexivity | intros [= ->]; reflexivity].
      * split; [discriminate | intros [= ? _]; congruence].
Qed.

Lemma startswith_true (p s : string) : startswith p s = true <-> has_prefix p s.
Proof.
  unfold startswith, has_prefix. rewrite bool_decide_eq_true. split.
  - intros [r Hr]. exists r. by apply strip_prefix_Some.
  - intros [r Hr]. exists r. by apply strip_prefix_Some.
Qed.

Lemma startswith_false (p s : string) : startswith p s = false <-> ~ has_prefix p s.
Proof. rewrite <- startswith_true. destruct (startswith p s); split; congruence. Qed.

Lemma split_once_Some (sep s a b : string) :
  split_once sep s = Some (a, b) -> s = a +:+ sep +:+ b.
Proof.
  revert a. induction s as [|c s IH]; intros a; simpl.
  - destruct (strip_prefix sep "") as [r|] eqn:E; [|discriminate].
    intros [= <- <-]. by apply strip_prefix_Some in E.
  - destruct (strip_prefix sep (String c s)) as [r|] eqn:E.
    + intros [= <- <-]. by apply strip_prefix_Some in E.
    + destruct (split_once sep s) as [[a' b']|]; [|discriminate].
      intros [= <- <-]. rewrite sapp_cons. f_equal. by apply IH.
Qed.

Lemma split_once_occurs (sep s : string) :
  occurs_in sep s -> is_Some (split_once sep s).
Proof.
  intros (a & b & ->). induction a as [|c a IH].
  - rewrite sapp_nil_l.
    assert (strip_prefix sep (sep +:+ b) = Some b) as E by by apply strip_prefix_Some.
    destruct sep, b; simpl in *; rewrite ?E; eauto.
  - rewrite sapp_cons. simpl.
    destruct (strip_prefix sep (String c (a +:+ sep +:+ b))); [eauto|].
    destruct IH as [[a' b'] ->]. eauto.
Qed.

Lemma contains_true (sub s : string) : contains sub s = true <-> occurs_in sub s.
Proof.
  unfold contains. rewrite bool_decide_eq_true. split.
  - intros [[a b] Hab]. exists a, b. by apply split_once_Some.
  - apply split_once_occurs.
Qed.

Lemma contains_false (sub s : string) : contains sub s = false <-> ~ occurs_in sub s.
Proof. rewrite <- contains_true. destruct (contains sub s); split; congruence. Qed.

Lemma occurs_in_refl (s : string) : occurs_in s s.
Proof. exists "", "". by rewrite sapp_nil_l, sapp_nil_r. Qed.

Lemma occurs_in_left (sub a b : string) : occurs_in sub a -> occurs_in sub (a +:+ b).
Proof.
  intros (x & y & ->). exists x, (y +:+ b). by rewrite !sapp_assoc.
Qed.

Lemma occurs_in_right (sub a b : string) : occurs_in sub b -> occurs_in sub (a +:+ b).
Proof.
  intros (x & y & ->). exists (a +:+ x), y. by rewrite !sapp_assoc.
Qed.

Lemma occurs_in_trans (s t u : string) : occurs_in s t -> occurs_in t u -> occurs_in s u.
Proof.
  intros Hst (x & y & ->). by apply occurs_in_right, occurs_in_left.
Qed.

(** ** Cache keys *)

Lemma sub_non_alnum_length (url : string) :
  String.length (sub_non_alnum url) = String.length url.
Proof. induction url as [|c url IH]; simpl; [reflexivity | by f_equal]. Qed.

Lemma sub_non_alnum_get (url : string) (i : nat) :
  String.get i (sub_non_alnum url)
  = (fun c => if is_alnum c then c else "_"%char) <$> String.get i url.
Proof.
  revert i. induction url as [|c url IH]; intros i; [reflexivity|].
  destruct i as [|i]; simpl; [reflexivity | apply IH].
Qed.

Lemma is_alnum_alphabet (c : ascii) :
  is_alnum c = true
  <-> In c (chars "abcdefghijklmnopqrstuvwxyzABCDEFGHIJKLMNOPQRSTUVWXYZ0123456789").
Proof.
  split.
  - destruct c as [[] [] [] [] [] [] [] []]; vm_compute; intros Hc;
      first [discriminate Hc | repeat (first [left; reflexivity | right])].
  - intros Hin. simpl in Hin.
    repeat (destruct Hin as [<- | Hin]; [reflexivity|]). destruct Hin.
Qed.

(** C8.  The cache key is a function of the URL alone; it is the cache
    directory followed by the URL in which every character outside a-z, A-Z
    and 0-9 is replaced by an underscore and every other character is kept, so
    two URLs that differ in punctuation only (here [http://a.com/x] and
    [http://a_com_x]) get the same key. *)
Theorem generate_cache_filename_sanitizes :
  (forall url1 url2, url1 = url2 ->
     generate_cache_filename url1 = generate_cache_filename url2)
  /\ (forall url, exists key,
        generate_cache_filename url = CACHE_DIR +:+ key
        /\ String.length key = String.length url
        /\ forall i, String.get i key
                     = (fun c => if is_alnum c then c else "_"%char) <$> String.get i url)
  /\ (forall c, is_alnum c = true
        <-> In c (chars "abcdefghijklmnopqrstuvwxyzABCDEFGHIJKLMNOPQRSTUVWXYZ0123456789"))
  /\ "http://a.com/x" <> "http://a_com_x"
  /\ generate_cache_filename "http://a.com/x" = generate_cache_filename "http://a_com_x".
Proof.
  split; [by intros ? ? ->|].
  split.
  { intros url. exists (sub_non_alnum url). split; [reflexivity|].
    split; [apply sub_non_alnum_length | apply sub_non_alnum_get]. }
  split; [apply is_alnum_alphabet|].
  split; [discriminate | reflexivity].
Qed.

Lemma generate_cache_filename_sanitizes_witness :
  generate_cache_filename "http://a.com/x" = generate_cache_filename "http://a.com/x".
Proof.
  apply (proj1 generate_cache_filename_sanitizes "http://a.com/x" "http://a.com/x").
  reflexivity.
Defined.

(** ** Start-up *)

(** C9, as the code has it.  Started with no positional argument, [main]
    prints the usage message with [print], that is on standard output, leaves
    standard error untouched and exits with status 1. *)
Theorem main_usage_on_stdout (argv : list string) (c : console) :
  length argv <= 1 ->
  main argv c = (Exit 1, {| stdout := stdout c ++ [usage]; stderr := stderr c |}).
Proof.
  intros Hlen. unfold main. rewrite bool_decide_eq_true_2 by exact Hlen. reflexivity.
Qed.

Lemma main_usage_on_stdout_witness :
  main ["Proxy-bonus.py"] {| stdout := []; stderr := [] |}
  = (Exit 1, {| stdout := [usage]; stderr := [] |}).
Proof.
  apply (main_usage_on_stdout ["Proxy-bonus.py"] {| stdout := []; stderr := [] |}).
  simpl. lia.
Defined.

(** C9, as stated, fails: with no positional argument nothing reaches
    standard error. *)
Lemma main_usage_not_on_stderr :
  ~ ((main ["Proxy-bonus.py"] {| stdout := []; stderr := [] |}).1 = Exit 1
     /\ In usage (stderr (main ["Proxy-bonus.py"] {| stdout := []; stderr := [] |}).2)).
Proof. intros [_ Hin]. exact Hin. Qed.

(** ** The origin resolver *)

Lemma after_scheme_occurs (url : string) : occurs_in (after_scheme url) url.
Proof.
  unfold after_scheme. destruct (split_once "://" url) as [[a r]|] eqn:E.
  - apply split_once_Some in E as ->. apply occurs_in_right, occurs_in_right, occurs_in_refl.
  - apply occurs_in_refl.
Qed.

Lemma after_scheme_plain (url : string) : ~ occurs_in "://" url -> after_scheme url = url.
Proof.
  intros Hno. unfold after_scheme.
  destruct (split_once "://" url) as [[a r]|] eqn:E; [|reflexivity].
  destruct Hno. exists a, r. by apply split_once_Some.
Qed.

(** What [extract_server_info] returns for a target that holds no scheme
    separator: the text before the first slash is the server part and the
    rest, with its slash, the path (a lone slash when there is none); the
    server part is cut at its first colon, and the port is 80 unless the text
    after that colon is an integer literal. *)
Lemma extract_server_info_plain (url : string) :
  ~ occurs_in "://" url ->
  extract_server_info url =
    let server_info := match split_once "/" url with Some (a, _) => a | None => url end in
    let path := match split_once "/" url with Some (_, b) => "/" +:+ b | None => "/" end in
    match split_once ":" server_info with
    | Some (hostname, port_str) => (hostname, default 80%Z (py_int port_str), path)
    | None => (server_info, 80%Z, path)
    end.
Proof.
  intros Hno. unfold extract_server_info.
  fold (after_scheme url). rewrite (after_scheme_plain url Hno).
  destruct (split_once "/" url) as [[a b]|]; simpl;
    (destruct (split_once ":" _) as [[h p]|]; [destruct (py_int p)|]; reflexivity).
Qed.

(** The three targets the specification lists for the resolver. *)
Lemma extract_server_info_examples :
  extract_server_info "example.com:8080/path" = ("example.com", 8080%Z, "/path")
  /\ extract_server_info "example.com/path" = ("example.com", 80%Z, "/path")
  /\ extract_server_info "example.com:notanumber/path" = ("example.com", 80%Z, "/path").
Proof. repeat split; reflexivity. Qed.

(** C6 at a target whose query holds a URL.  The request line
    [GET http://example.com/r?u=http://x.com/b HTTP/1.1] reaches
    [extract_server_info] as [example.com/r?u=http://x.com/b]; the resolver
    then drops everything up to the scheme separator inside the query and
    answers with the host and path of the embedded URL, where a cut at the
    first slash gives host [example.com] and path [/r?u=http://x.com/b]. *)
Theorem extract_server_info_embedded_scheme :
  request_target ("GET http://example.com/r?u=http://x.com/b HTTP/1.1" +:+ CRLF
                  +:+ "Host: example.com" +:+ CRLFCRLF)
    = Ok (Some "example.com/r?u=http://x.com/b")
  /\ split_once "/" "example.com/r?u=http://x.com/b"
     = Some ("example.com", "r?u=http://x.com/b")
  /\ extract_server_info "example.com/r?u=http://x.com/b" = ("x.com", 80%Z, "/b").
Proof. repeat split; reflexivity. Qed.



(** ** Integer literals *)

Lemma chars_inj (s t : string) : chars s = chars t -> s = t.
Proof.
  revert t. induction s as [|c s IH]; intros [|d t]; simpl; try congruence.
  intros [= -> Hst]. f_equal. by apply IH.
Qed.

Lemma chars_rev_app (s t : string) : chars (String.rev_app s t) = rev (chars s) ++ chars t.
Proof.
  revert t. induction s as [|c s IH]; intros t; simpl; [reflexivity|].
  rewrite IH. simpl. by rewrite <- app_assoc.
Qed.

Lemma chars_rev (s : string) : chars (String.rev s) = rev (chars s).
Proof. unfold String.rev. rewrite chars_rev_app. simpl. by rewrite app_nil_r. Qed.

Lemma is_digit_not_space (c : ascii) : is_digit c = true -> int_space c = false.
Proof.
  unfold is_digit, int_space. intros Hd.
  apply andb_true_iff in Hd as [H1%Nat.leb_le H2%Nat.leb_le].
  repeat (apply orb_false_iff; split).
  - apply andb_false_iff. right. apply Nat.leb_gt. lia.
  - apply Nat.eqb_neq. lia.
  - apply Nat.eqb_neq. lia.
  - apply Nat.eqb_neq. lia.
Qed.

Lemma lstrip_digits (s : string) : Forall (fun c => is_digit c = true) (chars s) -> lstrip s = s.
Proof.
  destruct s as [|c s]; [reflexivity|]. simpl. intros Hall.
  apply Forall_cons in Hall as [Hc _]. by rewrite (is_digit_not_space c Hc).
Qed.

Lemma strip_digits (s : string) : Forall (fun c => is_digit c = true) (chars s) -> strip s = s.
Proof.
  intros Hall. unfold strip. rewrite (lstrip_digits s Hall).
  apply chars_inj. rewrite chars_rev.
  rewrite lstrip_digits.
  - rewrite chars_rev. apply rev_involutive.
  - rewrite chars_rev. by apply Forall_rev.
Qed.

Lemma digits_value_digits (s : string) (acc : Z) (pending : bool) :
  Forall (fun c => is_digit c = true) (chars s) ->
  s <> "" \/ pending = true ->
  digits_value acc pending s
  = Some (fold_left (fun a c => (10 * a + digit_val c)%Z) (chars s) acc).
Proof.
  revert acc pending. induction s as [|c s IH]; intros acc pending Hall Hne; simpl.
  - destruct Hne as [Hne | ->]; [by destruct Hne | reflexivity].
  - simpl in Hall. apply Forall_cons in Hall as [Hc Hs].
    rewrite Hc. apply IH; [exact Hs | by right].
Qed.

Lemma count_digits_digits (ds : string) :
  Forall (fun c => is_digit c = true) (chars ds) -> count_digits ds = String.length ds.
Proof.
  induction ds as [|c ds IH]; simpl; [reflexivity|].
  intros Hall. apply Forall_cons in Hall as [-> Hall]. by rewrite IH.
Qed.

(** [int] of a non-empty run of decimal digits is its decimal value when the
    run is within the bound on the number of digits, and fails beyond it. *)
Lemma py_int_digits (ds : string) :
  ds <> "" ->
  Forall (fun c => is_digit c = true) (chars ds) ->
  py_int ds
  = if (String.length ds <=? int_max_str_digits)%nat then Some (decimal ds) else None.
Proof.
  intros Hne Hall. unfold py_int, decimal. rewrite (count_digits_digits ds Hall).
  destruct (String.length ds <=? int_max_str_digits)%nat; [|reflexivity].
  rewrite (strip_digits ds Hall).
  destruct ds as [|c s]; [by destruct Hne|].
  pose proof Hall as Hall'. simpl in Hall'. apply Forall_cons in Hall' as [Hc _].
  assert (c <> "+"%char /\ c <> "-"%char) as [Hp Hm].
  { split; intros ->; discriminate Hc. }
  transitivity (digits_value 0 false (String c s)).
  - destruct c as [[] [] [] [] [] [] [] []]; try reflexivity; congruence.
  - apply digits_value_digits; [exact Hall | by left].
Qed.

(** ** The [max-age] directive *)

Lemma take_digits_all (s : string) : Forall (fun c => is_digit c = true) (chars (take_digits s)).
Proof.
  induction s as [|c s IH]; simpl; [constructor|].
  destruct (is_digit c) eqn:Hc; simpl; [by constructor | constructor].
Qed.

(** The digits found by the search, in place: they follow an occurrence of
    [max-age=], they are a non-empty run of digits, and the run ends where
    they end. *)
Lemma max_age_match_Some (s ds : string) :
  max_age_match s = Some ds ->
  ds <> ""
  /\ Forall (fun c => is_digit c = true) (chars ds)
  /\ exists pre post, s = pre +:+ "max-age=" +:+ ds +:+ post /\ take_digits post = "".
Proof.
  assert (forall r, exists post, r = take_digits r +:+ post /\ take_digits post = "") as Hsplit.
  { induction r as [|c r [post [IH1 IH2]]]; simpl; [by exists ""|].
    destruct (is_digit c) eqn:Hc.
    - exists post. rewrite sapp_cons. by rewrite <- IH1.
    - exists (String c r). split; [reflexivity|]. simpl. by rewrite Hc. }
  induction s as [|c s IH].
  - simpl. discriminate.
  - cbn [max_age_match].
    destruct (strip_prefix "max-age=" (String c s)) as [r|] eqn:Ep.
    + destruct (take_digits r) as [|d ds'] eqn:Ed.
      * intros Hm. destruct (IH Hm) as (Hne & Hall & pre & post & -> & Hpost).
        split; [exact Hne|]. split; [exact Hall|].
        exists (String c pre), post. by rewrite sapp_cons.
      * intros [= <-]. split; [discriminate|].
        split; [rewrite <- Ed; apply take_digits_all|].
        apply strip_prefix_Some in Ep. destruct (Hsplit r) as (post & Hr & Hpost).
        exists "", post. rewrite sapp_nil_l, Ep. rewrite <- Ed. by rewrite <- Hr.
    + intros Hm. destruct (IH Hm) as (Hne & Hall & pre & post & -> & Hpost).
      split; [exact Hne|]. split; [exact Hall|].
      exists (String c pre), post. by rewrite sapp_cons.
Qed.

(** The search fails exactly when no occurrence of [max-age=] is followed by
    a digit. *)
Lemma max_age_match_None (s : string) :
  max_age_match s = None
  <-> forall pre d post, is_digit d = true -> s <> pre +:+ "max-age=" +:+ String d post.
Proof.
  induction s as [|c s IH].
  - split; [|reflexivity]. intros _ pre d post _. destruct pre; discriminate.
  - cbn [max_age_match].
    destruct (strip_prefix "max-age=" (String c s)) as [r|] eqn:Ep.
    + destruct (take_digits r) as [|d ds'] eqn:Ed.
      * rewrite IH. split.
        -- intros Hs pre d post Hd. destruct pre as [|c' pre].
           ++ rewrite sapp_nil_l. intros Heq. apply strip_prefix_Some in Heq.
              rewrite Heq in Ep. injection Ep as <-. simpl in Ed. by rewrite Hd in Ed.
           ++ rewrite sapp_cons. intros [= -> Heq]. by apply (Hs pre d post Hd).
        -- intros Hs pre d post Hd Heq. apply (Hs (String c pre) d post Hd).
           rewrite sapp_cons. by f_equal.
      * split; [discriminate|]. intros Hs. exfalso.
        apply strip_prefix_Some in Ep. destruct r as [|d' r']; [discriminate Ed|].
        simpl in Ed. destruct (is_digit d') eqn:Hd; [|discriminate Ed].
        apply (Hs "" d' r' Hd). by rewrite sapp_nil_l.
    + rewrite IH. split.
      * intros Hs pre d post Hd. destruct pre as [|c' pre].
        -- rewrite sapp_nil_l. intros Heq. apply strip_prefix_Some in Heq. congruence.
        -- rewrite sapp_cons. intros [= -> Heq]. by apply (Hs pre d post Hd).
      * intros Hs pre d post Hd Heq. apply (Hs (String c pre) d post Hd).
        rewrite sapp_cons. by f_equal.
Qed.

(** ** Freshness *)

Section FreshnessFacts.
Context `{PyRuntime}.

(** With an [Expires] header the outcome is read off the result of the date
    parser alone. *)
Lemma is_cache_valid_expires_eq (now : clock) (headers : gmap string string) (e : string) :
  headers !! "Expires" = Some e ->
  is_cache_valid now headers
  = match parsedate_to_datetime e with
    | Ok (Aware t) => Ok (utc_now now <? t)%Z
    | Ok (Naive _) => Ok false
    | Raise ex => if type_or_value_error ex then Ok false else Raise ex
    end.
Proof.
  intros He. unfold is_cache_valid. rewrite He.
  destruct (parsedate_to_datetime e) as [[t|t]|ex]; reflexivity.
Qed.

(** C1, as the code has it.  With an [Expires] header, the verdict is valid
    exactly when the value parses to a date that carries a zone and the
    current UTC time is strictly before it; for such a date the verdict is the
    strict order of the two instants.  A parsed date without zone gives
    invalid, and so does a parse that ends with [ValueError] or [TypeError].
    The outcome is the same for every mapping with that [Expires] value: no
    other header is consulted. *)
Theorem is_cache_valid_expires (now : clock) (headers : gmap string string) (e : string) :
  headers !! "Expires" = Some e ->
  (is_cache_valid now headers = Ok true
   <-> exists t, parsedate_to_datetime e = Ok (Aware t) /\ (utc_now now < t)%Z)
  /\ (forall t, parsedate_to_datetime e = Ok (Aware t) ->
        is_cache_valid now headers = Ok (utc_now now <? t)%Z)
  /\ (forall t, parsedate_to_datetime e = Ok (Naive t) ->
        is_cache_valid now headers = Ok false)
  /\ (parsedate_to_datetime e = Raise ValueError \/ parsedate_to_datetime e = Raise TypeError ->
      is_cache_valid now headers = Ok false)
  /\ (forall headers' : gmap string string, headers' !! "Expires" = Some e ->
        is_cache_valid now headers' = is_cache_valid now headers).
Proof.
  intros He. rewrite (is_cache_valid_expires_eq now headers e He).
  split; [|split; [|split; [|split]]].
  - split.
    + destruct (parsedate_to_datetime e) as [[t|t]|ex]; [|discriminate|].
      * intros [= Hlt]. exists t. split; [reflexivity | by apply Z.ltb_lt].
      * destruct (type_or_value_error ex); discriminate.
    + intros (t & -> & Hlt). f_equal. by apply Z.ltb_lt.
  - by intros t ->.
  - by intros t ->.
  - by intros [-> | ->].
  - intros headers' He'. by rewrite (is_cache_valid_expires_eq now headers' e He').
Qed.

(** An exception of the date parser that is neither [ValueError] nor
    [TypeError], such as the [OverflowError] of a field beyond the machine
    integers, passes the handler and leaves [is_cache_valid]. *)
Lemma is_cache_valid_expires_escapes (now : clock) (headers : gmap string string)
    (e : string) (ex : exn) :
  headers !! "Expires" = Some e ->
  parsedate_to_datetime e = Raise ex ->
  type_or_value_error ex = false ->
  is_cache_valid now headers = Raise ex.
Proof.
  intros He Hp Hex. rewrite (is_cache_valid_expires_eq now headers e He). by rewrite Hp, Hex.
Qed.

(** Without [Expires], the outcome as a function of the other headers. *)
Lemma is_cache_valid_no_expires_eq (now : clock) (headers : gmap string string) (cc : string) :
  headers !! "Expires" = None ->
  headers !! "Cache-Control" = Some cc ->
  is_cache_valid now headers
  = if contains "no-cache" cc || contains "no-store" cc then Ok false
    else
      match max_age_match cc with
      | None => Ok false
      | Some ds =>
          if (String.length ds <=? int_max_str_digits)%nat then
            match headers !! "cache-timestamp" with
            | None => Ok false
            | Some stamp =>
                match float_of_str stamp with
                | None => Raise ValueError
                | Some t => Ok (float_lt_int (float_sub (time_time now) t) (decimal ds))
                end
            end
          else Raise ValueError
      end.
Proof.
  intros He Hc. unfold is_cache_valid. rewrite He, Hc.
  destruct (contains "no-cache" cc || contains "no-store" cc); [reflexivity|].
  destruct (max_age_match cc) as [ds|] eqn:Hm; [|reflexivity].
  destruct (max_age_match_Some cc ds Hm) as (Hne & Hall & _).
  rewrite (py_int_digits ds Hne Hall).
  destruct (String.length ds <=? int_max_str_digits)%nat; [|reflexivity]. simpl.
  destruct (headers !! "cache-timestamp") as [stamp|]; [|reflexivity].
  destruct (float_of_str stamp); reflexivity.
Qed.

(** The rules of the [Cache-Control] branch where the code follows them:
    [no-cache] or [no-store] anywhere in the value gives invalid; otherwise,
    for a [max-age=] directive within the bound on digits and a numeric
    [cache-timestamp], the verdict is the comparison of the age with the
    directive; without directive, or with such a directive and no time stamp,
    the verdict is invalid. *)
Lemma is_cache_valid_cache_control (now : clock) (headers : gmap string string) (cc : string) :
  headers !! "Expires" = None ->
  headers !! "Cache-Control" = Some cc ->
  (occurs_in "no-cache" cc \/ occurs_in "no-store" cc ->
     is_cache_valid now headers = Ok false)
  /\ (~ occurs_in "no-cache" cc -> ~ occurs_in "no-store" cc ->
      (forall ds stamp t,
          max_age_match cc = Some ds ->
          String.length ds <= int_max_str_digits ->
          headers !! "cache-timestamp" = Some stamp ->
          float_of_str stamp = Some t ->
          is_cache_valid now headers
          = Ok (float_lt_int (float_sub (time_time now) t) (decimal ds)))
      /\ ((forall pre d post, is_digit d = true -> cc <> pre +:+ "max-age=" +:+ String d post) ->
          is_cache_valid now headers = Ok false)
      /\ (forall ds,
            max_age_match cc = Some ds ->
            String.length ds <= int_max_str_digits ->
            headers !! "cache-timestamp" = None ->
            is_cache_valid now headers = Ok false)).
Proof.
  intros He Hc. rewrite (is_cache_valid_no_expires_eq now headers cc He Hc). split.
  - intros [Hno | Hno]; apply contains_true in Hno; rewrite Hno; [reflexivity|].
    by rewrite orb_true_r.
  - intros Hnc%contains_false Hns%contains_false. rewrite Hnc, Hns. simpl.
    split; [|split].
    + intros ds stamp t -> Hlen%Nat.leb_le -> ->. by rewrite Hlen.
    + intros Habs%max_age_match_None. by rewrite Habs.
    + intros ds -> Hlen%Nat.leb_le ->. by rewrite Hlen.
Qed.

(** C2 at a directive with more digits than [int] accepts.  Without
    [Expires], with a [Cache-Control] value that holds neither [no-cache] nor
    [no-store] and whose [max-age=] directive has more than 4300 digits,
    [is_cache_valid] raises [ValueError], with or without a time stamp: the
    conversion of the digits stands outside every handler, unlike the port
    conversion of [extract_server_info]. *)
Theorem is_cache_valid_long_max_age_raises
  (now : clock) (headers : gmap string string) (cc ds : string) :
  headers !! "Expires" = None ->
  headers !! "Cache-Control" = Some cc ->
  ~ occurs_in "no-cache" cc ->
  ~ occurs_in "no-store" cc ->
  max_age_match cc = Some ds ->
  int_max_str_digits < String.length ds ->
  is_cache_valid now headers = Raise ValueError.
Proof.
  intros He Hc Hnc%contains_false Hns%contains_false Hm Hlen%Nat.leb_gt.
  rewrite (is_cache_valid_no_expires_eq now headers cc He Hc).
  by rewrite Hnc, Hns, Hm, Hlen.
Qed.

(** C3 at a time stamp that is not a number.  Without [Expires], with a
    [Cache-Control] value that holds a [max-age=] directive and neither
    [no-cache] nor [no-store], a [cache-timestamp] value that [float] rejects
    makes [is_cache_valid] raise [ValueError]: the conversion stands outside
    every handler, unlike the date parse above it and the port conversion of
    [extract_server_info]. *)
Theorem is_cache_valid_bad_timestamp_raises
  (now : clock) (headers : gmap string string) (cc ds stamp : string) :
  headers !! "Expires" = None ->
  headers !! "Cache-Control" = Some cc ->
  ~ occurs_in "no-cache" cc ->
  ~ occurs_in "no-store" cc ->
  max_age_match cc = Some ds ->
  headers !! "cache-timestamp" = Some stamp ->
  float_of_str stamp = None ->
  is_cache_valid now headers = Raise ValueError.
Proof.
  intros He Hc Hnc%contains_false Hns%contains_false Hm Hs Hf.
  rewrite (is_cache_valid_no_expires_eq now headers cc He Hc).
  rewrite Hnc, Hns, Hm, Hs, Hf. simpl.
  by destruct (String.length ds <=? int_max_str_digits)%nat.
Qed.

(** With neither header the verdict is invalid. *)
Lemma is_cache_valid_no_signal (now : clock) (headers : gmap string string) :
  headers !! "Expires" = None ->
  headers !! "Cache-Control" = None ->
  is_cache_valid now headers = Ok false.
Proof. intros He Hc. unfold is_cache_valid. by rewrite He, Hc. Qed.

End FreshnessFacts.

(** *** Worked examples of the freshness rules *)

(** [Expires] ten seconds after the epoch: valid one second before, invalid
    one second after, whatever [Cache-Control] says. *)
Lemma is_cache_valid_expires_witness :
  expires_headers !! "Expires" = Some "Thu, 01 Jan 1970 00:00:10 GMT"
  /\ is_cache_valid (demo_clock 9) expires_headers = Ok true
  /\ is_cache_valid (demo_clock 11) expires_headers = Ok false.
Proof.
  assert (expires_headers !! "Expires" = Some "Thu, 01 Jan 1970 00:00:10 GMT") as He
    by reflexivity.
  split; [exact He|]. split.
  - apply (proj1 (proj2 (is_cache_valid_expires (demo_clock 9) expires_headers _ He))
             10000000%Z). reflexivity.
  - apply (proj1 (proj2 (is_cache_valid_expires (demo_clock 11) expires_headers _ He))
             10000000%Z). reflexivity.
Defined.

(** C1, as stated, fails.  The value [Thu, 01 Jan 2099 00:00:00 -0000] parses
    to a date (one without zone) and the current time, a thousand seconds
    after the epoch, is before it, yet the verdict is not valid. *)
Lemma is_cache_valid_expires_zoneless :
  ~ (is_cache_valid (demo_clock 1000) zoneless_headers = Ok true
     <-> exists d, parsedate_to_datetime "Thu, 01 Jan 2099 00:00:00 -0000" = Ok d
                   /\ (utc_now (demo_clock 1000) < datetime_value d)%Z).
Proof.
  intros [_ Hvalid].
  assert (is_cache_valid (demo_clock 1000) zoneless_headers = Ok true) as Hv.
  { apply Hvalid. exists (Naive 4070908800000000). split; [reflexivity|]. vm_compute. reflexivity. }
  vm_compute in Hv. discriminate Hv.
Qed.

(** The same value through the handler, and a zone offset the parser cannot
    hold: the first gives invalid, the second leaves [is_cache_valid] as
    [OverflowError]. *)
Lemma is_cache_valid_expires_zoneless_invalid :
  is_cache_valid (demo_clock 1000) zoneless_headers = Ok false
  /\ is_cache_valid (demo_clock 1000)
       {[ "Expires" := "Thu, 01 Jan 2099 00:00:00 +99999999999999" ]}
     = Raise OverflowError.
Proof.
  split.
  - rewrite (is_cache_valid_expires_eq (demo_clock 1000) zoneless_headers
               "Thu, 01 Jan 2099 00:00:00 -0000" eq_refl). reflexivity.
  - apply (is_cache_valid_expires_escapes (demo_clock 1000) _
             "Thu, 01 Jan 2099 00:00:00 +99999999999999"); reflexivity.
Qed.

(** [max-age=60] at time 1000: a stamp of 941 (59 seconds old) is valid, a
    stamp of 939 (61 seconds old) is not. *)
Lemma is_cache_valid_cache_control_witness :
  max_age_headers "941" !! "Expires" = None
  /\ max_age_headers "941" !! "Cache-Control" = Some "public, max-age=60"
  /\ is_cache_valid (demo_clock 1000) (max_age_headers "941") = Ok true
  /\ is_cache_valid (demo_clock 1000) (max_age_headers "939") = Ok false.
Proof.
  split; [reflexivity|]. split; [reflexivity|].
  assert (~ occurs_in "no-cache" "public, max-age=60") as Hnc
    by (by apply contains_false).
  assert (~ occurs_in "no-store" "public, max-age=60") as Hns
    by (by apply contains_false).
  assert (String.length "60" <= int_max_str_digits) as Hlen
    by (apply Nat.leb_le; reflexivity).
  split.
  - apply (proj1 (proj2 (is_cache_valid_cache_control (demo_clock 1000) (max_age_headers "941")
                           "public, max-age=60" eq_refl eq_refl) Hnc Hns)
             "60" "941" 941%Z eq_refl Hlen eq_refl eq_refl).
  - apply (proj1 (proj2 (is_cache_valid_cache_control (demo_clock 1000) (max_age_headers "939")
                           "public, max-age=60" eq_refl eq_refl) Hnc Hns)
             "60" "939" 939%Z eq_refl Hlen eq_refl eq_refl).
Defined.

(** A directive of 4301 digits and no time stamp. *)
Lemma is_cache_valid_long_max_age_raises_witness :
  long_max_age_headers !! "Expires" = None
  /\ long_max_age_headers !! "Cache-Control" = Some ("max-age=" +:+ nines 4301)
  /\ long_max_age_headers !! "cache-timestamp" = None
  /\ max_age_match ("max-age=" +:+ nines 4301) = Some (nines 4301)
  /\ is_cache_valid (demo_clock 1000) long_max_age_headers = Raise ValueError.
Proof.
  assert (max_age_match ("max-age=" +:+ nines 4301) = Some (nines 4301)) as Hm
    by (vm_compute; reflexivity).
  split; [vm_compute; reflexivity|]. split; [vm_compute; reflexivity|].
  split; [vm_compute; reflexivity|]. split; [exact Hm|].
  apply (is_cache_valid_long_max_age_raises (demo_clock 1000) long_max_age_headers
           ("max-age=" +:+ nines 4301) (nines 4301)).
  - vm_compute; reflexivity.
  - vm_compute; reflexivity.
  - apply contains_false. vm_compute; reflexivity.
  - apply contains_false. vm_compute; reflexivity.
  - exact Hm.
  - apply Nat.ltb_lt. vm_compute; reflexivity.
Defined.

(** A time stamp that is no number. *)
Lemma is_cache_valid_bad_timestamp_raises_witness :
  max_age_headers "abc" !! "Expires" = None
  /\ max_age_headers "abc" !! "Cache-Control" = Some "public, max-age=60"
  /\ max_age_headers "abc" !! "cache-timestamp" = Some "abc"
  /\ float_of_str "abc" = None
  /\ is_cache_valid (demo_clock 1000) (max_age_headers "abc") = Raise ValueError.
Proof.
  repeat (split; [reflexivity|]).
  apply (is_cache_valid_bad_timestamp_raises (demo_clock 1000) (max_age_headers "abc")
           "public, max-age=60" "60" "abc"); try reflexivity; by apply contains_false.
Defined.

(** ** Header extraction *)

(** [split_once] cuts at the first occurrence of the separator. *)
Lemma split_once_first (sep s a b : string) :
  split_once sep s = Some (a, b) ->
  forall a' b', s = a' +:+ sep +:+ b' -> String.length a <= String.length a'.
Proof.
  revert a. induction s as [|c s IH]; intros a; simpl.
  - destruct (strip_prefix sep "") as [r|]; [|discriminate].
    intros [= <- <-] a' b' _. simpl. lia.
  - destruct (strip_prefix sep (String c s)) as [r|] eqn:E.
    + intros [= <- <-] a' b' _. simpl. lia.
    + destruct (split_once sep s) as [[a0 b0]|] eqn:E0; [|discriminate].
      intros [= <- <-] a' b' Hs. destruct a' as [|c' a''].
      * rewrite sapp_nil_l in Hs. apply strip_prefix_Some in Hs. congruence.
      * rewrite sapp_cons in Hs. injection Hs as -> Hs. simpl.
        pose proof (IH a0 eq_refl a'' b' Hs). lia.
Qed.

Lemma add_header_line_skip (headers : gmap string string) (line : string) :
  ~ occurs_in ": " line -> add_header_line headers line = headers.
Proof. intros Hno%contains_false. unfold add_header_line. by rewrite Hno. Qed.

Lemma add_header_line_entry (headers : gmap string string) (line name value : string) :
  split_once ": " line = Some (name, value) ->
  add_header_line headers line = <[name := value]> headers.
Proof.
  intros Hs. unfold add_header_line, contains.
  rewrite bool_decide_eq_true_2 by (rewrite Hs; eauto). by rewrite Hs.
Qed.

(** Every entry of the mapping comes from a line that holds the separator. *)
Lemma foldl_add_header_line_lookup (lines : list string) (headers : gmap string string)
    (name value : string) :
  foldl add_header_line headers lines !! name = Some value ->
  headers !! name = Some value
  \/ exists line, In line lines /\ split_once ": " line = Some (name, value).
Proof.
  revert headers. induction lines as [|line lines IH]; intros headers; simpl; [by left|].
  intros Hl. destruct (IH _ Hl) as [Hh | (l & Hin & Hs)]; [|right; eauto].
  unfold add_header_line in Hh. destruct (contains ": " line); [|by left].
  destruct (split_once ": " line) as [[n v]|] eqn:Es; [|by left].
  destruct (decide (n = name)) as [->|Hne].
  - rewrite lookup_insert_eq in Hh. injection Hh as ->. right. eauto.
  - rewrite lookup_insert_ne in Hh by exact Hne. by left.
Qed.

(** The loop of [extract_headers_from_cache] on a text that splits at the
    blank line: a header line without a colon followed by a space leaves no
    trace, the mapping is the one the remaining lines give; every entry of
    the mapping comes from a header line that holds this separator, and its
    name and value are the texts before and after the first occurrence of
    it. *)
Lemma extract_headers_from_content_separator (content header_section body : string) :
  split_once CRLFCRLF content = Some (header_section, body) ->
  (forall before line after,
      header_lines header_section = before ++ line :: after ->
      ~ occurs_in ": " line ->
      extract_headers_from_content content = foldl add_header_line ∅ (before ++ after))
  /\ (forall name value,
        extract_headers_from_content content !! name = Some value ->
        exists line,
          In line (header_lines header_section)
          /\ line = name +:+ ": " +:+ value
          /\ forall name' value', line = name' +:+ ": " +:+ value' ->
                                  String.length name <= String.length name').
Proof.
  intros Hs. unfold extract_headers_from_content. rewrite Hs. split.
  - intros before line after -> Hno.
    rewrite !foldl_app. simpl. by rewrite (add_header_line_skip _ line Hno).
  - intros name value Hl.
    apply foldl_add_header_line_lookup in Hl as [Hl | (line & Hin & Hsp)].
    + by rewrite lookup_empty in Hl.
    + exists line. split; [exact Hin|].
      split; [by apply split_once_Some | by apply (split_once_first _ _ _ _ Hsp)].
Qed.

(** A line [Name:value], with no space after the colon, gives no entry. *)
Lemma extract_headers_from_content_separator_witness :
  split_once CRLFCRLF sample_content
  = Some ("HTTP/1.1 200 OK" +:+ CRLF +:+ "Name:value" +:+ CRLF +:+ "Content-Type: text/plain",
          "hello")
  /\ ~ occurs_in ": " "Name:value"
  /\ extract_headers_from_content sample_content
     = foldl add_header_line ∅ ([] ++ ["Content-Type: text/plain"])
  /\ extract_headers_from_content sample_content !! "Name" = None
  /\ extract_headers_from_content sample_content !! "Content-Type" = Some "text/plain".
Proof.
  assert (~ occurs_in ": " "Name:value") as Hno by (by apply contains_false).
  pose proof (proj1 (extract_headers_from_content_separator sample_content _ _ eq_refl)
                [] "Name:value" ["Content-Type: text/plain"] eq_refl Hno) as Heq.
  split; [reflexivity|]. split; [exact Hno|]. split; [exact Heq|].
  rewrite Heq. split; reflexivity.
Defined.

(** ** Files read in text mode *)

Lemma universal_newlines_no_CR (s : string) : ~ In CR (chars (universal_newlines s)).
Proof.
  induction s as [|c s IH]; simpl; [tauto|].
  destruct (Ascii.eqb_spec c CR) as [->|Hc].
  - destruct s as [|d s']; [simpl; intros [[=]|[]]|].
    destruct (Ascii.eqb d LF); [exact IH|].
    intros [[=]|Hin]. by apply IH.
  - intros [Heq|Hin]; [congruence | by apply IH].
Qed.

Lemma occurs_in_chars (sub s : string) (c : ascii) :
  occurs_in sub s -> In c (chars sub) -> In c (chars s).
Proof.
  intros (a & b & ->) Hin. rewrite !chars_app.
  apply in_or_app. right. apply in_or_app. by left.
Qed.

(** A text read from a file never splits at the blank line of HTTP: no
    carriage return is left in it. *)
Lemma split_once_universal_newlines (text : string) :
  split_once CRLFCRLF (universal_newlines text) = None.
Proof.
  destruct (split_once CRLFCRLF (universal_newlines text)) as [[a b]|] eqn:E; [|reflexivity].
  destruct (universal_newlines_no_CR text).
  apply (occurs_in_chars CRLFCRLF); [|by left].
  exists a, b. by apply split_once_Some.
Qed.

Section CacheStoreFacts.
Context `{PyRuntime}.

Lemma read_text_no_split (files : gmap string string) (name content : string) :
  read_text files name = Ok content -> split_once CRLFCRLF content = None.
Proof.
  unfold read_text. destruct (files !! name) as [bytes|]; [|discriminate].
  destruct (decode_locale bytes) as [text|]; [|discriminate].
  intros [= <-]. apply split_once_universal_newlines.
Qed.

(** Whatever the file holds, [extract_headers_from_cache] returns the empty
    mapping. *)
Lemma extract_headers_from_cache_empty (files : gmap string string) (cache_filename : string) :
  extract_headers_from_cache files cache_filename = ∅.
Proof.
  unfold extract_headers_from_cache.
  destruct (read_text files cache_filename) as [content|e] eqn:Er; [|reflexivity].
  unfold extract_headers_from_content. by rewrite (read_text_no_split _ _ _ Er).
Qed.

(** The second pass of the write path never rewrites the file: the stored
    bytes are the raw response, with no time stamp. *)
Lemma save_response_files (files : gmap string string) (cache_filename response : string)
    (stamp : float) :
  (save_response files cache_filename response stamp).1 = <[cache_filename := response]> files.
Proof.
  unfold save_response.
  destruct (read_text _ cache_filename) as [content|e] eqn:Er; [|reflexivity].
  by rewrite (read_text_no_split _ _ _ Er).
Qed.

(** C4 at the response of the specification.  The response itself splits at
    the blank line and its head holds [Content-Type: text/plain].  Written
    through the write path, the file keeps the raw bytes and gets no
    [cache-timestamp] line; read back, the mapping is empty, so it holds
    neither [Content-Type] nor [cache-timestamp]. *)
Theorem save_response_then_extract_headers
  (files : gmap string string) (cache_filename : string) (stamp : float) :
  extract_headers_from_content plain_response !! "Content-Type" = Some "text/plain"
  /\ (save_response files cache_filename plain_response stamp).1 !! cache_filename
     = Some plain_response
  /\ extract_headers_from_cache
       (save_response files cache_filename plain_response stamp).1 cache_filename = ∅
  /\ extract_headers_from_cache
       (save_response files cache_filename plain_response stamp).1 cache_filename
     !! "Content-Type" = None
  /\ extract_headers_from_cache
       (save_response files cache_filename plain_response stamp).1 cache_filename
     !! "cache-timestamp" = None.
Proof.
  split; [reflexivity|].
  split; [rewrite save_response_files; apply lookup_insert_eq|].
  rewrite extract_headers_from_cache_empty.
  split; [reflexivity|]. split; apply lookup_empty.
Qed.

(** A cached entry is never fresh when its headers come from the file. *)
Lemma is_cache_valid_from_cache (now : clock) (files : gmap string string) (cache_filename : string) :
  is_cache_valid now (extract_headers_from_cache files cache_filename) = Ok false.
Proof.
  rewrite extract_headers_from_cache_empty.
  apply is_cache_valid_no_signal; apply lookup_empty.
Qed.

End CacheStoreFacts.

Section CachedHeaders.
Context `{PyRuntime}.



End CachedHeaders.



(** ** Prefetch *)

Lemma skipped_true (resource : string) :
  skipped resource = true
  <-> has_prefix "javascript:" resource \/ resource = "#" \/ resource = "".
Proof.
  unfold skipped. rewrite !orb_true_iff, startswith_true, !bool_decide_eq_true. tauto.
Qed.

Lemma skipped_false (resource : string) :
  skipped resource = false
  <-> ~ (has_prefix "javascript:" resource \/ resource = "#" \/ resource = "").
Proof. rewrite <- skipped_true. destruct (skipped resource); split; congruence. Qed.

(** The four cases of the URL construction, first match wins. *)
Lemma resource_url_cases (protocol base_hostname base_url resource : string) :
  (has_prefix "http" resource ->
     resource_url protocol base_hostname base_url resource = resource)
  /\ (~ has_prefix "http" resource -> has_prefix "//" resource ->
      resource_url protocol base_hostname base_url resource = protocol +:+ ":" +:+ resource)
  /\ (~ has_prefix "http" resource -> ~ has_prefix "//" resource -> has_prefix "/" resource ->
      resource_url protocol base_hostname base_url resource
      = protocol +:+ "://" +:+ base_hostname +:+ resource)
  /\ (~ has_prefix "http" resource -> ~ has_prefix "/" resource ->
      resource_url protocol base_hostname base_url resource
      = join "/" (removelast (split "/" base_url)) +:+ "/" +:+ resource).
Proof.
  unfold resource_url. repeat split.
  - intros Hh%startswith_true. by rewrite Hh.
  - intros Hh%startswith_false Hs%startswith_true. by rewrite Hh, Hs.
  - intros Hh%startswith_false Hs%startswith_false Hr%startswith_true. by rewrite Hh, Hs, Hr.
  - intros Hh%startswith_false Hr. 
    assert (~ has_prefix "//" resource) as Hs.
    { intros [r ->]. apply Hr. exists ("/" +:+ r). reflexivity. }
    apply startswith_false in Hs, Hr. rewrite Hh, Hs, Hr. by rewrite sapp_assoc.
Qed.

Lemma prefetch_tasks_In (protocol base_hostname base_url : string) (all_resources : list string)
    (url : string) :
  In url (prefetch_tasks protocol base_hostname base_url all_resources)
  <-> exists resource,
        In resource all_resources
        /\ ~ (has_prefix "javascript:" resource \/ resource = "#" \/ resource = "")
        /\ url = resource_url protocol base_hostname base_url resource.
Proof.
  unfold prefetch_tasks. rewrite <- list_elem_of_In, list_elem_of_fmap. split.
  - intros (r & -> & [Hs Hin]%list_elem_of_filter). exists r.
    split; [by apply list_elem_of_In|]. split; [by apply skipped_false | reflexivity].
  - intros (r & Hin & Hs & ->). exists r. split; [reflexivity|].
    apply list_elem_of_filter. split; [by apply skipped_false | by apply list_elem_of_In].
Qed.

Section PrefetchFacts.
Context `{PyRuntime}.

(** C5.  Every candidate is resolved by the first of four cases that
    applies: it begins with [http] and is kept; it begins with two slashes
    and gets the scheme and a colon in front; it begins with a slash and gets
    scheme, separator and base host in front; otherwise it is appended to the
    base URL cut after its last slash.  With scheme [http], host [ex.com] and
    base [http://ex.com/a/b.html] this gives the four URLs of the
    specification.  A thread is started for the URL of every candidate found
    in an [href] or [src] attribute, except those that begin with
    [javascript:], are a lone hash sign or are empty. *)
Theorem prefetch_resources_resolution :
  (forall protocol base_hostname base_url resource,
      (has_prefix "http" resource ->
         resource_url protocol base_hostname base_url resource = resource)
      /\ (~ has_prefix "http" resource -> has_prefix "//" resource ->
          resource_url protocol base_hostname base_url resource = protocol +:+ ":" +:+ resource)
      /\ (~ has_prefix "http" resource -> ~ has_prefix "//" resource ->
          has_prefix "/" resource ->
          resource_url protocol base_hostname base_url resource
          = protocol +:+ "://" +:+ base_hostname +:+ resource)
      /\ (~ has_prefix "http" resource -> ~ has_prefix "/" resource ->
          resource_url protocol base_hostname base_url resource
          = join "/" (removelast (split "/" base_url)) +:+ "/" +:+ resource))
  /\ (resource_url "http" "ex.com" "http://ex.com/a/b.html" "/c.png" = "http://ex.com/c.png"
      /\ resource_url "http" "ex.com" "http://ex.com/a/b.html" "//cdn.com/d.js"
         = "http://cdn.com/d.js"
      /\ resource_url "http" "ex.com" "http://ex.com/a/b.html" "e.png" = "http://ex.com/a/e.png"
      /\ resource_url "http" "ex.com" "http://ex.com/a/b.html" "http://x.com/f"
         = "http://x.com/f")
  /\ (forall html_content base_url parsed_url,
        urlparse base_url = Some parsed_url ->
        exists tasks,
          prefetch_resources html_content base_url = Ok tasks
          /\ forall url,
               In url tasks
               <-> exists resource,
                     (In resource (findall "href" html_content)
                      \/ In resource (findall "src" html_content))
                     /\ ~ (has_prefix "javascript:" resource \/ resource = "#" \/ resource = "")
                     /\ url = resource_url
                                (if bool_decide (scheme parsed_url = "") then "http"
                                 else scheme parsed_url)
                                (netloc parsed_url) base_url resource).
Proof.
  split; [apply resource_url_cases|].
  split; [repeat split; reflexivity|].
  intros html_content base_url parsed_url Hp.
  unfold prefetch_resources. rewrite Hp. simpl. eexists. split; [reflexivity|].
  intros url. rewrite prefetch_tasks_In.
  assert (forall r, In r (remove_dups (findall "href" html_content ++ findall "src" html_content))
                    <-> In r (findall "href" html_content) \/ In r (findall "src" html_content))
    as Hin.
  { intros r. rewrite <- !list_elem_of_In, elem_of_remove_dups. apply elem_of_app. }
  split; intros (r & Hr & Hrest); exists r; (split; [by apply Hin | exact Hrest]).
Qed.

End PrefetchFacts.

(** The page of the specification: four tasks, none for the [javascript:]
    link and none for the lone hash sign. *)
Lemma prefetch_resources_resolution_witness :
  urlparse "http://ex.com/a/b.html"
  = Some {| scheme := "http"; netloc := "ex.com"; path := "/a/b.html" |}
  /\ prefetch_resources sample_html "http://ex.com/a/b.html"
     = Ok ["http://ex.com/c.png"; "http://x.com/f"; "http://cdn.com/d.js"; "http://ex.com/a/e.png"]
  /\ exists tasks,
       prefetch_resources sample_html "http://ex.com/a/b.html" = Ok tasks
       /\ In "http://ex.com/a/e.png" tasks.
Proof.
  assert (urlparse "http://ex.com/a/b.html"
          = Some {| scheme := "http"; netloc := "ex.com"; path := "/a/b.html" |}) as Hp
    by (vm_compute; reflexivity).
  split; [exact Hp|]. split; [vm_compute; reflexivity|].
  destruct (proj2 (proj2 prefetch_resources_resolution) sample_html "http://ex.com/a/b.html"
              {| scheme := "http"; netloc := "ex.com"; path := "/a/b.html" |} Hp)
    as (tasks & Htasks & Hin).
  exists tasks. split; [exact Htasks|].
  apply (proj2 (Hin "http://ex.com/a/e.png")). exists "e.png".
  split; [right; vm_compute; tauto|].
  split; [apply skipped_false; vm_compute; reflexivity | vm_compute; reflexivity].
Defined.

(** ** The bounded loops of [split] and [findall] run to their end *)

Lemma slength_app (s t : string) :
  String.length (s +:+ t) = String.length s + String.length t.
Proof.
  induction s as [|c s IH]; [reflexivity|]. rewrite sapp_cons. simpl. by rewrite IH.
Qed.

Lemma split_once_shorter (sep s a b : string) :
  sep <> "" -> split_once sep s = Some (a, b) -> String.length b < String.length s.
Proof.
  intros Hne Hs. apply split_once_Some in Hs as ->.
  rewrite !slength_app. destruct sep; [by destruct Hne|]. simpl. lia.
Qed.

Lemma split_once_empty (sep : string) : sep <> "" -> split_once sep "" = None.
Proof. intros Hne. destruct sep; [by destruct Hne | reflexivity]. Qed.

(** More cuts than characters change nothing. *)
Lemma split_go_fuel (sep : string) (n m : nat) (s : string) :
  sep <> "" -> String.length s <= n -> String.length s <= m ->
  split_go n sep s = split_go m sep s.
Proof.
  intros Hne. revert m s. induction n as [|n IH]; intros m s Hn Hm.
  - destruct s; [|simpl in Hn; lia].
    destruct m; cbn [split_go]; [reflexivity|]. by rewrite (split_once_empty sep Hne).
  - cbn [split_go]. destruct (split_once sep s) as [[a b]|] eqn:Es.
    + pose proof (split_once_shorter sep s a b Hne Es) as Hlt.
      destruct m as [|m]; [lia|]. cbn [split_go]. rewrite Es. f_equal. apply IH; lia.
    + destruct m; cbn [split_go]; [reflexivity | by rewrite Es].
Qed.

(** Joining the pieces with the separator gives the text back. *)
Lemma join_split_go (sep : string) (n : nat) (s : string) :
  sep <> "" -> String.length s <= n -> join sep (split_go n sep s) = s.
Proof.
  intros Hne. revert s. induction n as [|n IH]; intros s Hn; [reflexivity|].
  cbn [split_go]. destruct (split_once sep s) as [[a b]|] eqn:Es; [|reflexivity].
  pose proof (split_once_shorter sep s a b Hne Es) as Hlt.
  pose proof (IH b ltac:(lia)) as Hb.
  apply split_once_Some in Es as ->.
  destruct (split_go n sep b) as [|x l] eqn:Eg.
  - destruct n; cbn [split_go] in Eg; [discriminate|].
    destruct (split_once sep b) as [[? ?]|]; discriminate.
  - change (join sep (a :: x :: l)) with (a +:+ sep +:+ join sep (x :: l)). by rewrite Hb.
Qed.

Lemma join_split (sep s : string) : sep <> "" -> join sep (split sep s) = s.
Proof. intros Hne. apply join_split_go; [exact Hne | lia]. Qed.

Lemma match_attr_shorter (attr s v rest : string) :
  match_attr attr s = Some (v, rest) -> String.length rest < String.length s.
Proof.
  assert (forall r v0 r0, until_quote r = Some (v0, r0) -> String.length r0 < String.length r)
    as Hq.
  { induction r as [|c r IH]; simpl; [discriminate|]. intros v0 r0.
    destruct (is_quote c); [intros [= <- <-]; lia|].
    destruct (until_quote r) as [[v1 r1]|]; [|discriminate].
    intros [= <- <-]. pose proof (IH v1 r1 eq_refl). lia. }
  unfold match_attr. destruct (strip_prefix (attr +:+ "=") s) as [[|q r]|] eqn:Ep; try discriminate.
  destruct (is_quote q); [|discriminate].
  destruct (until_quote r) as [[[|c v0] r0]|] eqn:Eu; try discriminate.
  intros [= <- <-]. apply strip_prefix_Some in Ep as ->.
  apply Hq in Eu. rewrite slength_app. simpl. lia.
Qed.

(** More steps than characters change nothing. *)
Lemma findall_go_fuel (attr : string) (n m : nat) (s : string) :
  String.length s < n -> String.length s < m ->
  findall_go n attr s = findall_go m attr s.
Proof.
  revert m s. induction n as [|n IH]; intros m s Hn Hm; [lia|].
  destruct m as [|m]; [lia|]. cbn [findall_go].
  destruct (match_attr attr s) as [[v rest]|] eqn:Em.
  - apply match_attr_shorter in Em. f_equal. apply IH; lia.
  - destruct s as [|c s]; [reflexivity|]. simpl in Hn, Hm. apply IH; lia.
Qed.

(** * Further properties of the program *)

(** ** More on cutting strings *)

Lemma In_chars_occurs (c : ascii) (s : string) : In c (chars s) -> occurs_in (String c "") s.
Proof.
  induction s as [|d s IH]; simpl; [tauto|].
  intros [->|Hin].
  - exists "", s. reflexivity.
  - destruct (IH Hin) as (a & b & ->). exists (String d a), b. reflexivity.
Qed.

Lemma occurs_chars_In (c : ascii) (s : string) : occurs_in (String c "") s -> In c (chars s).
Proof. intros Ho. apply (occurs_in_chars (String c "") s c Ho). by left. Qed.

(** A separator whose first character is absent from [a] is first found
    right after [a]. *)
Lemma split_once_head_absent (d : ascii) (sep' a b : string) :
  ~ In d (chars a) ->
  split_once (String d sep') (a +:+ String d sep' +:+ b) = Some (a, b).
Proof.
  induction a as [|c a IH]; intros Hd.
  - rewrite sapp_nil_l.
    assert (strip_prefix (String d sep') (String d sep' +:+ b) = Some b) as E
      by by apply strip_prefix_Some.
    rewrite sapp_cons in *. cbn [split_once]. by rewrite E.
  - rewrite sapp_cons. simpl in Hd. cbn [split_once strip_prefix].
    destruct (Ascii.eqb_spec d c) as [->|Hne]; [tauto|].
    rewrite IH by tauto. reflexivity.
Qed.

Lemma split_once_None (sep s : string) : split_once sep s = None <-> ~ occurs_in sep s.
Proof.
  rewrite <- contains_false. unfold contains.
  destruct (split_once sep s) as [p|].
  - rewrite bool_decide_eq_true_2 by eauto. split; discriminate.
  - rewrite bool_decide_eq_false_2 by (intros [? [=]]). tauto.
Qed.

(** The text before the cut holds no separator. *)
Lemma split_once_prefix_free (sep s a b : string) :
  sep <> "" -> split_once sep s = Some (a, b) -> ~ occurs_in sep a.
Proof.
  intros Hne Hs (x & y & ->).
  pose proof (split_once_Some _ _ _ _ Hs) as Heq.
  pose proof (split_once_first _ _ _ _ Hs x (y +:+ sep +:+ b)) as Hlen.
  rewrite !sapp_assoc in Heq. specialize (Hlen Heq).
  rewrite !slength_app in Hlen. destruct sep; [by destruct Hne|]. simpl in Hlen. lia.
Qed.

Lemma split_once_char_prefix (c : ascii) (s a b : string) :
  split_once (String c "") s = Some (a, b) -> ~ In c (chars a).
Proof.
  intros Hs Hin. apply (split_once_prefix_free (String c "") s a b); [discriminate | exact Hs|].
  by apply In_chars_occurs.
Qed.

Lemma split_cons (sep s a b : string) :
  sep <> "" -> split_once sep s = Some (a, b) -> split sep s = a :: split sep b.
Proof.
  intros Hne Hs. unfold split.
  pose proof (split_once_shorter sep s a b Hne Hs) as Hlt.
  destruct (String.length s) as [|n] eqn:En; [lia|].
  cbn [split_go]. rewrite Hs. f_equal. apply split_go_fuel; [exact Hne | lia | lia].
Qed.

Lemma split_single (sep s : string) : split_once sep s = None -> split sep s = [s].
Proof.
  intros Hs. unfold split. destruct (String.length s); cbn [split_go]; [reflexivity|].
  by rewrite Hs.
Qed.

(** ** Cache keys as file names *)

Lemma sub_non_alnum_chars (url : string) :
  Forall (fun c => is_alnum c = true \/ c = "_"%char) (chars (sub_non_alnum url)).
Proof.
  induction url as [|c url IH]; simpl; constructor; [|exact IH].
  destruct (is_alnum c) eqn:Hc; [by left | by right].
Qed.

Lemma sub_non_alnum_app (a b : string) :
  sub_non_alnum (a +:+ b) = sub_non_alnum a +:+ sub_non_alnum b.
Proof.
  induction a as [|c a IH]; [reflexivity|].
  rewrite sapp_cons. simpl. rewrite sapp_cons. by rewrite IH.
Qed.

Lemma sub_non_alnum_alike (u1 u2 : string) :
  sub_non_alnum u1 = sub_non_alnum u2 <-> Forall2 key_alike (chars u1) (chars u2).
Proof.
  revert u2. induction u1 as [|a u1 IH]; intros [|b u2]; simpl.
  - split; [constructor | reflexivity].
  - split; [discriminate | intros Hf; inversion Hf].
  - split; [discriminate | intros Hf; inversion Hf].
  - split.
    + intros [= Hab Hrest]. constructor; [|by apply IH].
      unfold key_alike. revert Hab.
      destruct (is_alnum a) eqn:Ha, (is_alnum b) eqn:Hb; intros Hab.
      * by left.
      * subst a. discriminate Ha.
      * subst b. discriminate Hb.
      * by right.
    + intros Hf. apply Forall2_cons in Hf as [Hab Hrest].
      f_equal; [|by apply IH].
      destruct Hab as [->|[-> ->]]; reflexivity.
Qed.

(** X1.  A cache key names a file directly inside the cache directory: after
    the directory prefix, the key consists of letters, digits and underscores
    only, so the only slash of the file name is the one of the prefix. *)
Theorem generate_cache_filename_flat (url : string) :
  exists key,
    generate_cache_filename url = "proxy_cache" +:+ "/" +:+ key
    /\ String.length key = String.length url
    /\ Forall (fun c => is_alnum c = true \/ c = "_"%char) (chars key)
    /\ split "/" (generate_cache_filename url) = ["proxy_cache"; key].
Proof.
  exists (sub_non_alnum url). split; [reflexivity|].
  split; [apply sub_non_alnum_length|].
  split; [apply sub_non_alnum_chars|].
  assert (split_once "/" (sub_non_alnum url) = None) as Hnone.
  { apply split_once_None. intros Ho%occurs_chars_In.
    pose proof (sub_non_alnum_chars url) as Hall.
    rewrite Forall_forall in Hall. apply list_elem_of_In in Ho.
    destruct (Hall _ Ho) as [Ha | Hu]; discriminate. }
  change (generate_cache_filename url) with ("proxy_cache" +:+ "/" +:+ sub_non_alnum url).
  rewrite (split_cons "/" _ "proxy_cache" (sub_non_alnum url)); [|discriminate|].
  - by rewrite (split_single _ _ Hnone).
  - apply split_once_head_absent. vm_compute. intuition discriminate.
Qed.

(** X2.  Two URLs get the same cache key exactly when they have the same
    length and, position by position, either the same character or two
    characters that are both outside letters and digits. *)
Theorem generate_cache_filename_collide (url1 url2 : string) :
  generate_cache_filename url1 = generate_cache_filename url2
  <-> Forall2 key_alike (chars url1) (chars url2).
Proof.
  rewrite <- sub_non_alnum_alike. unfold generate_cache_filename. split.
  - apply String.app_inj.
  - by intros ->.
Qed.

(** X3.  The key under which [prefetch_resource] stores an absolute URL
    (line 215) is never the key under which [handle_client_request] looks the
    same resource up (line 300): the handler drops the scheme before it
    builds the key, the prefetcher keeps it, and the kept scheme leaves
    [http___] in front of the name. *)
Theorem generate_cache_filename_scheme (target : string) :
  generate_cache_filename ("http://" +:+ target)
  = CACHE_DIR +:+ "http___" +:+ sub_non_alnum target
  /\ generate_cache_filename ("http://" +:+ target) <> generate_cache_filename target.
Proof.
  split.
  - unfold generate_cache_filename. by rewrite sub_non_alnum_app.
  - intros Heq. apply (f_equal String.length) in Heq.
    unfold generate_cache_filename in Heq.
    rewrite !slength_app, !sub_non_alnum_length, slength_app in Heq. simpl in Heq. lia.
Qed.

(** ** The request line *)

Lemma split_space_words (word tail : string) :
  ~ In " "%char (chars word) ->
  tail = "" \/ has_prefix " " tail ->
  exists rest, split " " (word +:+ tail) = word :: rest.
Proof.
  intros Hw [-> | [r ->]].
  - rewrite sapp_nil_r. exists []. apply split_single, split_once_None.
    intros Ho%occurs_chars_In. tauto.
  - exists (split " " r). apply split_cons; [discriminate|].
    by apply split_once_head_absent.
Qed.

(** X4.  A request whose first line is a method, a space, a target and then
    either nothing or a space and more text gives that target to the
    resolver, without its leading [http://] when it has one; the method and
    the rest of the line play no part. *)
Theorem request_target_words (method url tail more : string) :
  ~ In " "%char (chars method) ->
  ~ In LF (chars method) ->
  ~ In " "%char (chars url) ->
  ~ In LF (chars url) ->
  ~ In LF (chars tail) ->
  tail = "" \/ has_prefix " " tail ->
  (forall target, url = "http://" +:+ target ->
     request_target (method +:+ " " +:+ url +:+ tail +:+ String LF more) = Ok (Some target))
  /\ (~ has_prefix "http://" url ->
      request_target (method +:+ " " +:+ url +:+ tail +:+ String LF more) = Ok (Some url)).
Proof.
  intros Hms Hml Hus Hul Htl Htail.
  set (first_line := method +:+ " " +:+ url +:+ tail).
  assert (split (String LF "") (method +:+ " " +:+ url +:+ tail +:+ String LF more)
          = first_line :: split (String LF "") more) as Hlines.
  { apply split_cons; [discriminate|].
    replace (method +:+ " " +:+ url +:+ tail +:+ String LF more)
      with (first_line +:+ String LF "" +:+ more)
      by (unfold first_line; by rewrite !sapp_assoc).
    apply split_once_head_absent. unfold first_line. rewrite !chars_app.
    rewrite !in_app_iff. simpl. intros [?|[[[=]|[]]|[?|?]]]; tauto. }
  assert (first_line <> "") as Hne.
  { unfold first_line. destruct method; discriminate. }
  destruct (split_space_words url tail Hus Htail) as (rest & Hrest).
  assert (split " " first_line = method :: url :: rest) as Hwords.
  { unfold first_line. rewrite (split_cons " " _ method (url +:+ tail)); [by rewrite Hrest|discriminate|].
    by apply split_once_head_absent. }
  unfold request_target. rewrite Hlines, (bool_decide_eq_false_2 _ Hne), Hwords.
  split.
  - intros target ->. reflexivity.
  - intros Hno%startswith_false. by rewrite Hno.
Qed.

Lemma request_target_words_witness :
  request_target ("GET http://example.com/a HTTP/1.1" +:+ CRLF +:+ "Host: example.com" +:+ CRLFCRLF)
  = Ok (Some "example.com/a").
Proof.
  apply (proj1 (request_target_words "GET" "http://example.com/a"
                  (" HTTP/1.1" +:+ String CR "")
                  ("Host: example.com" +:+ CRLFCRLF)
                  ltac:(vm_compute; intuition discriminate)
                  ltac:(vm_compute; intuition discriminate)
                  ltac:(vm_compute; intuition discriminate)
                  ltac:(vm_compute; intuition discriminate)
                  ltac:(vm_compute; intuition discriminate)
                  ltac:(right; by exists ("HTTP/1.1" +:+ String CR "")))
          "example.com/a" eq_refl).
Defined.

(** X5.  The two ways a request line fails.  A request that is empty or
    begins with a line feed has an empty first line: the handler returns
    without an answer.  A first line that is not empty and holds no space has
    no second word: taking it raises [IndexError]. *)
Theorem request_target_malformed :
  request_target "" = Ok None
  /\ (forall more, request_target (String LF more) = Ok None)
  /\ (forall line more,
        line <> "" -> ~ In " "%char (chars line) -> ~ In LF (chars line) ->
        request_target line = Raise IndexError
        /\ request_target (line +:+ String LF more) = Raise IndexError).
Proof.
  split; [reflexivity|]. split.
  - intros more. unfold request_target.
    rewrite (split_cons (String LF "") (String LF more) "" more); [reflexivity|discriminate|].
    apply (split_once_head_absent LF "" "" more). simpl. tauto.
  - intros line more Hne Hsp Hlf.
    assert (split " " line = [line]) as Hwords.
    { apply split_single, split_once_None. intros Ho%occurs_chars_In. tauto. }
    split; unfold request_target.
    + rewrite split_single by (apply split_once_None; intros Ho%occurs_chars_In; tauto).
      by rewrite (bool_decide_eq_false_2 _ Hne), Hwords.
    + rewrite (split_cons (String LF "") _ line more); [|discriminate|].
      * by rewrite (bool_decide_eq_false_2 _ Hne), Hwords.
      * by apply (split_once_head_absent LF "" line more).
Qed.

Lemma request_target_malformed_witness :
  request_target "GET" = Raise IndexError
  /\ request_target ("GET" +:+ String LF "Host: a") = Raise IndexError.
Proof.
  apply (proj2 (proj2 request_target_malformed) "GET" "Host: a");
    [discriminate | vm_compute; intuition discriminate | vm_compute; intuition discriminate].
Defined.

(** ** More on the origin resolver *)

Lemma split_once_char_None (c : ascii) (s : string) :
  split_once (String c "") s = None -> ~ In c (chars s).
Proof. intros Hs Hin. apply (proj1 (split_once_None _ _) Hs). by apply In_chars_occurs. Qed.

Lemma not_In_chars_app_l (c : ascii) (a b : string) :
  ~ In c (chars (a +:+ b)) -> ~ In c (chars a).
Proof. rewrite chars_app, in_app_iff. tauto. Qed.



(** X6.  The host name returned for any target holds neither a colon nor a
    slash. *)
Theorem extract_server_info_hostname (url : string) :
  ~ In ":"%char (chars (extract_server_info url).1.1)
  /\ ~ In "/"%char (chars (extract_server_info url).1.1).
Proof.
  unfold extract_server_info. fold (after_scheme url).
  destruct (split_once "/" (after_scheme url)) as [[a b]|] eqn:Es.
  - apply split_once_char_prefix in Es.
    destruct (split_once ":" a) as [[h p]|] eqn:Ec; simpl.
    + split; [by apply (split_once_char_prefix _ _ _ _ Ec)|].
      apply split_once_Some in Ec. rewrite Ec in Es. by apply not_In_chars_app_l in Es.
    + split; [by apply split_once_char_None | exact Es].
  - apply split_once_char_None in Es.
    destruct (split_once ":" (after_scheme url)) as [[h p]|] eqn:Ec; simpl.
    + split; [by apply (split_once_char_prefix _ _ _ _ Ec)|].
      apply split_once_Some in Ec. rewrite Ec in Es. by apply not_In_chars_app_l in Es.
    + split; [by apply split_once_char_None | exact Es].
Qed.

(** X7.  A scheme in front of the target changes nothing: for a scheme
    without a colon and a target that holds no scheme separator of its own,
    the answer with the scheme is the answer without it. *)
Theorem extract_server_info_with_scheme (sch target : string) :
  ~ In ":"%char (chars sch) ->
  ~ occurs_in "://" target ->
  extract_server_info (sch +:+ "://" +:+ target) = extract_server_info target.
Proof.
  intros Hsch Hno. unfold extract_server_info.
  fold (after_scheme (sch +:+ "://" +:+ target)). fold (after_scheme target).
  rewrite (after_scheme_plain target Hno). unfold after_scheme.
  by rewrite (split_once_head_absent ":" "//" sch target Hsch).
Qed.

Lemma extract_server_info_with_scheme_witness :
  extract_server_info ("http" +:+ "://" +:+ "example.com:8080/path")
  = extract_server_info "example.com:8080/path".
Proof.
  apply extract_server_info_with_scheme.
  - vm_compute. intuition discriminate.
  - by apply contains_false.
Defined.

(** X8.  For a target without scheme separator the answer takes the target
    apart without loss: host, port text and path, put together again, are the
    target when it holds a slash; without a slash the path is a lone slash
    and host and port text make up the target. *)
Theorem extract_server_info_reassemble (url : string) :
  ~ occurs_in "://" url ->
  exists port_part,
    port_from port_part (extract_server_info url).1.2
    /\ (occurs_in "/" url ->
        url = (extract_server_info url).1.1 +:+ port_part +:+ (extract_server_info url).2)
    /\ (~ occurs_in "/" url ->
        url = (extract_server_info url).1.1 +:+ port_part
        /\ (extract_server_info url).2 = "/").
Proof.
  intros Hno. rewrite (extract_server_info_plain url Hno). cbv zeta.
  destruct (split_once "/" url) as [[a b]|] eqn:Es.
  - pose proof (split_once_Some _ _ _ _ Es) as Hu.
    assert (occurs_in "/" url) as Hocc by (exists a, b; exact Hu).
    destruct (split_once ":" a) as [[h p]|] eqn:Ec; simpl.
    + exists (":" +:+ p). split; [right; by exists p|].
      split; [|tauto]. intros _. apply split_once_Some in Ec.
      rewrite Hu, Ec. by rewrite !sapp_assoc.
    + exists "". split; [by left|]. split; [|tauto]. intros _. by rewrite sapp_nil_l.
  - apply split_once_None in Es.
    destruct (split_once ":" url) as [[h p]|] eqn:Ec; simpl.
    + exists (":" +:+ p). split; [right; by exists p|].
      split; [tauto|]. intros _. split; [by apply split_once_Some | reflexivity].
    + exists "". split; [by left|]. split; [tauto|]. intros _.
      split; [by rewrite sapp_nil_r | reflexivity].
Qed.

Lemma extract_server_info_reassemble_witness :
  exists port_part,
    port_from port_part 8080%Z
    /\ "example.com:8080/path" = "example.com" +:+ port_part +:+ "/path".
Proof.
  assert (~ occurs_in "://" "example.com:8080/path") as Hno by (by apply contains_false).
  destruct (extract_server_info_reassemble "example.com:8080/path" Hno)
    as (port_part & Hport & Hslash & _).
  exists port_part. split; [exact Hport|].
  apply Hslash. by apply contains_true.
Defined.

(** ** More on freshness *)

Section FreshnessMore.
Context `{PyRuntime}.

(** X9.  [is_cache_valid] raises in two situations only.  With an [Expires]
    header: the date parser ends with an exception other than [ValueError]
    and [TypeError], and that exception is the one raised.  Without it:
    [Cache-Control] holds a [max-age=] directive with digits and neither
    [no-cache] nor [no-store], and either the directive has more digits than
    [int] accepts or the [cache-timestamp] header is present with a value
    [float] rejects; the error is then [ValueError]. *)
Theorem is_cache_valid_raises_iff (now : clock) (headers : gmap string string) (e : exn) :
  is_cache_valid now headers = Raise e
  <-> (exists ex,
         headers !! "Expires" = Some ex
         /\ parsedate_to_datetime ex = Raise e
         /\ e <> ValueError /\ e <> TypeError)
      \/ (e = ValueError
          /\ headers !! "Expires" = None
          /\ exists cc ds,
               headers !! "Cache-Control" = Some cc
               /\ ~ occurs_in "no-cache" cc
               /\ ~ occurs_in "no-store" cc
               /\ max_age_match cc = Some ds
               /\ (int_max_str_digits < String.length ds
                   \/ exists stamp, headers !! "cache-timestamp" = Some stamp
                                    /\ float_of_str stamp = None)).
Proof.
  split.
  - destruct (headers !! "Expires") as [ex|] eqn:He.
    { rewrite (is_cache_valid_expires_eq now headers ex He).
      destruct (parsedate_to_datetime ex) as [[t|t]|ex'] eqn:Hp; try discriminate.
      destruct (type_or_value_error ex') eqn:Hex; [discriminate|].
      intros [= <-]. left. exists ex. split; [reflexivity|]. split; [exact Hp|].
      split; intros ->; discriminate Hex. }
    destruct (headers !! "Cache-Control") as [cc|] eqn:Hc.
    2:{ by rewrite (is_cache_valid_no_signal now headers He Hc). }
    rewrite (is_cache_valid_no_expires_eq now headers cc He Hc).
    destruct (contains "no-cache" cc) eqn:Hnc; [discriminate|].
    destruct (contains "no-store" cc) eqn:Hns; [discriminate|]. simpl.
    apply contains_false in Hnc, Hns.
    destruct (max_age_match cc) as [ds|] eqn:Hm; [|discriminate].
    destruct (String.length ds <=? int_max_str_digits)%nat eqn:Hlen.
    + destruct (headers !! "cache-timestamp") as [stamp|] eqn:Hs; [|discriminate].
      destruct (float_of_str stamp) eqn:Hf; [discriminate|].
      intros [= <-]. right. split; [reflexivity|]. split; [reflexivity|].
      exists cc, ds. split; [reflexivity|]. split; [exact Hnc|]. split; [exact Hns|].
      split; [exact Hm|]. right. by exists stamp.
    + intros [= <-]. right. split; [reflexivity|]. split; [reflexivity|].
      exists cc, ds. split; [reflexivity|]. split; [exact Hnc|]. split; [exact Hns|].
      split; [exact Hm|]. left. by apply Nat.leb_gt.
  - intros [(ex & He & Hp & Hv & Ht)
           | (-> & He & cc & ds & Hc & Hnc%contains_false & Hns%contains_false & Hm & Hwhy)].
    + rewrite (is_cache_valid_expires_eq now headers ex He), Hp.
      by destruct e.
    + rewrite (is_cache_valid_no_expires_eq now headers cc He Hc).
      rewrite Hnc, Hns, Hm. simpl.
      destruct Hwhy as [Hlen%Nat.leb_gt | (stamp & Hs & Hf)].
      * by rewrite Hlen.
      * rewrite Hs, Hf. by destruct (String.length ds <=? int_max_str_digits)%nat.
Qed.

(** X10.  A valid verdict always rests on an explicit signal: either an
    [Expires] date with a zone that lies after the current time, or, without
    [Expires], a [max-age=] directive within the bound on digits (with
    neither [no-cache] nor [no-store]) together with a numeric
    [cache-timestamp] that is younger than the directive allows. *)
Theorem is_cache_valid_true_iff (now : clock) (headers : gmap string string) :
  is_cache_valid now headers = Ok true
  <-> (exists ex t,
         headers !! "Expires" = Some ex
         /\ parsedate_to_datetime ex = Ok (Aware t)
         /\ (utc_now now < t)%Z)
      \/ (headers !! "Expires" = None
          /\ exists cc ds stamp t,
               headers !! "Cache-Control" = Some cc
               /\ ~ occurs_in "no-cache" cc
               /\ ~ occurs_in "no-store" cc
               /\ max_age_match cc = Some ds
               /\ String.length ds <= int_max_str_digits
               /\ headers !! "cache-timestamp" = Some stamp
               /\ float_of_str stamp = Some t
               /\ float_lt_int (float_sub (time_time now) t) (decimal ds) = true).
Proof.
  split.
  - destruct (headers !! "Expires") as [ex|] eqn:He.
    { rewrite (is_cache_valid_expires_eq now headers ex He).
      destruct (parsedate_to_datetime ex) as [[t|t]|ex'] eqn:Hp; try discriminate.
      - intros [= Hlt]. left. exists ex, t. apply Z.ltb_lt in Hlt. tauto.
      - destruct (type_or_value_error ex'); discriminate. }
    destruct (headers !! "Cache-Control") as [cc|] eqn:Hc.
    2:{ by rewrite (is_cache_valid_no_signal now headers He Hc). }
    rewrite (is_cache_valid_no_expires_eq now headers cc He Hc).
    destruct (contains "no-cache" cc) eqn:Hnc; [discriminate|].
    destruct (contains "no-store" cc) eqn:Hns; [discriminate|]. simpl.
    destruct (max_age_match cc) as [ds|] eqn:Hm; [|discriminate].
    destruct (String.length ds <=? int_max_str_digits)%nat eqn:Hlen; [|discriminate].
    destruct (headers !! "cache-timestamp") as [stamp|] eqn:Hs; [|discriminate].
    destruct (float_of_str stamp) as [t|] eqn:Hf; [|discriminate].
    intros [= Hlt]. right. split; [reflexivity|].
    exists cc, ds, stamp, t. apply contains_false in Hnc, Hns. apply Nat.leb_le in Hlen. tauto.
  - intros [(ex & t & He & Hp & Hlt)
           | (He & cc & ds & stamp & t & Hc & Hnc%contains_false & Hns%contains_false
              & Hm & Hlen%Nat.leb_le & Hs & Hf & Hlt)].
    + rewrite (is_cache_valid_expires_eq now headers ex He), Hp.
      f_equal. by apply Z.ltb_lt.
    + rewrite (is_cache_valid_no_expires_eq now headers cc He Hc).
      by rewrite Hnc, Hns, Hm, Hlen, Hs, Hf, Hlt.
Qed.

(** X11.  Under an [Expires] header freshness only decays: an entry valid
    at some time is valid at every earlier time, and an entry that is not
    valid stays so at every later time. *)
Theorem is_cache_valid_expires_decays (earlier later : clock) (headers : gmap string string) :
  is_Some (headers !! "Expires") ->
  (utc_now earlier <= utc_now later)%Z ->
  (is_cache_valid later headers = Ok true -> is_cache_valid earlier headers = Ok true)
  /\ (is_cache_valid earlier headers = Ok false -> is_cache_valid later headers = Ok false).
Proof.
  intros [ex He] Hle.
  rewrite (is_cache_valid_expires_eq earlier headers ex He),
    (is_cache_valid_expires_eq later headers ex He).
  destruct (parsedate_to_datetime ex) as [[t|t]|ex']; [|split; congruence..].
  split.
  - intros [= Hlt%Z.ltb_lt]. f_equal. apply Z.ltb_lt. lia.
  - intros [= Hge%Z.ltb_ge]. f_equal. apply Z.ltb_ge. lia.
Qed.

End FreshnessMore.

Lemma is_cache_valid_expires_decays_witness :
  is_cache_valid (demo_clock 5) expires_headers = Ok true
  /\ is_cache_valid (demo_clock 20) expires_headers = Ok false.
Proof.
  assert (is_Some (expires_headers !! "Expires")) as He by (vm_compute; eauto).
  split.
  - apply (proj1 (is_cache_valid_expires_decays (demo_clock 5) (demo_clock 9)
                    expires_headers He ltac:(vm_compute; discriminate))).
    vm_compute. reflexivity.
  - apply (proj2 (is_cache_valid_expires_decays (demo_clock 11) (demo_clock 20)
                    expires_headers He ltac:(vm_compute; discriminate))).
    vm_compute. reflexivity.
Defined.

(** ** More on header extraction and the store *)

Lemma foldl_add_header_line_other (lines : list string) (headers : gmap string string)
    (name : string) :
  (forall line value, In line lines -> split_once ": " line <> Some (name, value)) ->
  foldl add_header_line headers lines !! name = headers !! name.
Proof.
  revert headers. induction lines as [|line lines IH]; intros headers Hno; [reflexivity|].
  simpl. rewrite IH by (intros l v Hin; apply Hno; by right).
  unfold add_header_line. destruct (contains ": " line); [|reflexivity].
  destruct (split_once ": " line) as [[n v]|] eqn:Es; [|reflexivity].
  apply lookup_insert_ne. intros ->. apply (Hno line v); [by left | exact Es].
Qed.

(** X12.  When several header lines carry the same name, the mapping holds
    the value of the last of them. *)
Theorem extract_headers_from_content_last_wins
  (content header_section body : string) (before after : list string)
  (line name value : string) :
  split_once CRLFCRLF content = Some (header_section, body) ->
  header_lines header_section = before ++ line :: after ->
  split_once ": " line = Some (name, value) ->
  (forall later v, In later after -> split_once ": " later <> Some (name, v)) ->
  extract_headers_from_content content !! name = Some value.
Proof.
  intros Hs Hl Hline Hafter. unfold extract_headers_from_content. rewrite Hs, Hl.
  rewrite foldl_app. simpl. rewrite (foldl_add_header_line_other after _ name Hafter).
  rewrite (add_header_line_entry _ line name value Hline). apply lookup_insert_eq.
Qed.

Lemma extract_headers_from_content_last_wins_witness :
  extract_headers_from_content repeated_header_content !! "Cache-Control" = Some "max-age=60".
Proof.
  apply (extract_headers_from_content_last_wins repeated_header_content
           ("HTTP/1.1 200 OK" +:+ CRLF +:+ "Cache-Control: no-store" +:+ CRLF
            +:+ "Cache-Control: max-age=60") "hello"
           ["Cache-Control: no-store"] [] "Cache-Control: max-age=60");
    [reflexivity | reflexivity | reflexivity | intros later v []].
Defined.

Section CacheStoreMore.
Context `{PyRuntime}.

(** X13.  No stored entry is ever served: whatever the store holds under a
    name and whatever the time, the cache test of the handler leaves
    [use_cache] false.  The headers are read back in text mode, which leaves
    no blank line of HTTP to split at, so the verdict is computed on an empty
    mapping. *)
Theorem use_cache_never (now : clock) (files : gmap string string) (cache_filename : string) :
  extract_headers_from_cache files cache_filename = ∅
  /\ use_cache now files cache_filename = Ok false.
Proof.
  split; [apply extract_headers_from_cache_empty|].
  unfold use_cache. destruct (files !! cache_filename); [|reflexivity].
  rewrite extract_headers_from_cache_empty.
  by rewrite (is_cache_valid_no_signal now ∅ (lookup_empty _) (lookup_empty _)).
Qed.

(** X14.  The time-stamp pass of the write path never changes the store:
    whatever the file holds, the text read back from it has no blank line of
    HTTP to split at, so no [cache-timestamp] line is ever written; when the
    pass ends with an error the file is left as it is, too. *)
Theorem add_cache_timestamp_unchanged
  (files : gmap string string) (cache_filename : string) (stamp : float) :
  (add_cache_timestamp files cache_filename stamp).1 = files.
Proof.
  unfold add_cache_timestamp.
  destruct (read_text files cache_filename) as [content|e] eqn:Er; [|reflexivity].
  by rewrite (read_text_no_split _ _ _ Er).
Qed.

End CacheStoreMore.

(** ** More on the prefetch scheduler *)

Lemma until_quote_Some (r v rest : string) :
  until_quote r = Some (v, rest) ->
  Forall (fun c => is_quote c = false) (chars v)
  /\ exists q, is_quote q = true /\ r = v +:+ String q rest.
Proof.
  revert v. induction r as [|c r IH]; intros v; simpl; [discriminate|].
  destruct (is_quote c) eqn:Hc.
  - intros [= <- <-]. split; [constructor|]. by exists c.
  - destruct (until_quote r) as [[v0 r0]|]; [|discriminate].
    intros [= <- <-]. destruct (IH v0 eq_refl) as (Hall & q & Hq & ->).
    split; [by constructor|]. exists q. split; [exact Hq|]. reflexivity.
Qed.

Lemma match_attr_Some (attr s v rest : string) :
  match_attr attr s = Some (v, rest) ->
  v <> ""
  /\ Forall (fun c => is_quote c = false) (chars v)
  /\ exists q q', is_quote q = true /\ is_quote q' = true
                  /\ s = (attr +:+ "=" +:+ String q "" +:+ v +:+ String q' "") +:+ rest.
Proof.
  unfold match_attr.
  destruct (strip_prefix (attr +:+ "=") s) as [[|q r]|] eqn:Ep; try discriminate.
  destruct (is_quote q) eqn:Hq; [|discriminate].
  destruct (until_quote r) as [[[|c v0] r0]|] eqn:Eu; try discriminate.
  intros [= <- <-]. destruct (until_quote_Some _ _ _ Eu) as (Hall & q' & Hq' & ->).
  split; [discriminate|]. split; [exact Hall|].
  exists q, q'. split; [exact Hq|]. split; [exact Hq'|].
  apply strip_prefix_Some in Ep. rewrite Ep. by rewrite !sapp_assoc.
Qed.

Lemma findall_go_In (attr : string) (fuel : nat) (s r : string) :
  In r (findall_go fuel attr s) ->
  r <> ""
  /\ Forall (fun c => is_quote c = false) (chars r)
  /\ exists q q', is_quote q = true /\ is_quote q' = true
                  /\ occurs_in (attr +:+ "=" +:+ String q "" +:+ r +:+ String q' "") s.
Proof.
  revert s. induction fuel as [|n IH]; intros s; [intros []|].
  cbn [findall_go]. destruct (match_attr attr s) as [[v rest]|] eqn:Em.
  - destruct (match_attr_Some _ _ _ _ Em) as (Hne & Hall & q & q' & Hq & Hq' & Hs).
    intros [<- | Hin].
    + split; [exact Hne|]. split; [exact Hall|]. exists q, q'.
      split; [exact Hq|]. split; [exact Hq'|]. rewrite Hs. apply occurs_in_left, occurs_in_refl.
    + destruct (IH rest Hin) as (Hr & Hallr & q1 & q2 & Hq1 & Hq2 & Hocc).
      split; [exact Hr|]. split; [exact Hallr|]. exists q1, q2.
      split; [exact Hq1|]. split; [exact Hq2|]. rewrite Hs. by apply occurs_in_right.
  - destruct s as [|c s']; [intros []|]. intros Hin.
    destruct (IH s' Hin) as (Hr & Hallr & q1 & q2 & Hq1 & Hq2 & Hocc).
    split; [exact Hr|]. split; [exact Hallr|]. exists q1, q2.
    split; [exact Hq1|]. split; [exact Hq2|].
    by apply (occurs_in_right _ (String c "") s').
Qed.

(** X15.  Every candidate the attribute search returns stands in the page
    as the attribute name, an equals sign, a quote of either kind, the
    candidate and a quote of either kind (the two quotes need not be the
    same); it holds no quote and is never empty, so the empty-string test of
    the skip rule never fires on a candidate. *)
Theorem findall_candidates (attr html_content resource : string) :
  In resource (findall attr html_content) ->
  resource <> ""
  /\ Forall (fun c => is_quote c = false) (chars resource)
  /\ exists q q', is_quote q = true /\ is_quote q' = true
                  /\ occurs_in (attr +:+ "=" +:+ String q "" +:+ resource +:+ String q' "")
                       html_content.
Proof. apply findall_go_In. Qed.

Lemma findall_candidates_witness :
  "e.png" <> ""
  /\ Forall (fun c => is_quote c = false) (chars "e.png")
  /\ exists q q', is_quote q = true /\ is_quote q' = true
                  /\ occurs_in ("src" +:+ "=" +:+ String q "" +:+ "e.png" +:+ String q' "")
                       sample_html.
Proof.
  apply (findall_candidates "src" sample_html "e.png"). vm_compute. tauto.
Defined.

Lemma split_char_last (c : ascii) (last : string) (n : nat) (d : string) :
  ~ In c (chars last) ->
  String.length d <= n ->
  split (String c "") (d +:+ String c last) = split_go n (String c "") d ++ [last].
Proof.
  intros Hlast. revert d. induction n as [|n IH]; intros d Hn.
  - destruct d; [|simpl in Hn; lia]. rewrite sapp_nil_l. cbn [split_go app].
    rewrite (split_cons (String c "") _ "" last); [|discriminate|].
    + f_equal. apply split_single, split_once_None. intros Ho%occurs_chars_In. tauto.
    + apply (split_once_head_absent c "" "" last). simpl. tauto.
  - cbn [split_go]. destruct (split_once (String c "") d) as [[a b]|] eqn:Es.
    + pose proof (split_once_char_prefix _ _ _ _ Es) as Ha.
      assert (String c "" <> "") as Hne by discriminate.
      pose proof (split_once_shorter _ _ _ _ Hne Es) as Hlt.
      apply split_once_Some in Es. subst d. rewrite !sapp_assoc.
      rewrite (split_cons (String c "") _ a (b +:+ String c last)); [|discriminate|].
      * rewrite IH by lia. reflexivity.
      * by apply (split_once_head_absent c "" a).
    + apply split_once_char_None in Es.
      rewrite (split_cons (String c "") _ d last); [|discriminate|].
      * simpl. f_equal. apply split_single, split_once_None.
        intros Ho%occurs_chars_In. tauto.
      * by apply (split_once_head_absent c "" d last).
Qed.

(** X16.  A candidate that begins neither with [http] nor with a slash
    replaces the last segment of the base URL: for a base that ends in a
    slash followed by a segment without slash, the result is the base up to
    and including that slash, followed by the candidate.  A base with no
    slash at all is dropped: the result is a slash and the candidate. *)
Theorem resource_url_relative (protocol base_hostname resource : string) :
  ~ has_prefix "http" resource ->
  ~ has_prefix "/" resource ->
  (forall dir last,
      ~ In "/"%char (chars last) ->
      resource_url protocol base_hostname (dir +:+ "/" +:+ last) resource
      = dir +:+ "/" +:+ resource)
  /\ (forall base_url,
        ~ In "/"%char (chars base_url) ->
        resource_url protocol base_hostname base_url resource = "/" +:+ resource).
Proof.
  intros Hh Hs. split.
  - intros dir last Hlast.
    rewrite (proj2 (proj2 (proj2 (resource_url_cases protocol base_hostname _ resource))) Hh Hs).
    change ("/" +:+ last) with (String "/" last).
    rewrite (split_char_last "/" last (String.length dir) dir Hlast (le_n _)).
    rewrite removelast_last. fold (split "/" dir). by rewrite join_split.
  - intros base_url Hbase.
    rewrite (proj2 (proj2 (proj2 (resource_url_cases protocol base_hostname _ resource))) Hh Hs).
    rewrite split_single; [reflexivity|].
    apply split_once_None. intros Ho%occurs_chars_In. tauto.
Qed.

Lemma resource_url_relative_witness :
  resource_url "http" "ex.com:80" ("http://ex.com:80/a" +:+ "/" +:+ "b.html") "img/e.png"
  = "http://ex.com:80/a" +:+ "/" +:+ "img/e.png"
  /\ resource_url "http" "" "index.html" "e.png" = "/" +:+ "e.png".
Proof.
  assert (~ has_prefix "http" "img/e.png") as H1 by (by apply startswith_false).
  assert (~ has_prefix "/" "img/e.png") as H2 by (by apply startswith_false).
  assert (~ has_prefix "http" "e.png") as H3 by (by apply startswith_false).
  assert (~ has_prefix "/" "e.png") as H4 by (by apply startswith_false).
  split.
  - apply (proj1 (resource_url_relative "http" "ex.com:80" "img/e.png" H1 H2)).
    vm_compute. intuition discriminate.
  - apply (proj2 (resource_url_relative "http" "" "e.png" H3 H4)).
    vm_compute. intuition discriminate.
Defined.

(** ** The request sent to the origin *)

Lemma replace_go_fuel (old new : string) (n m : nat) (s : string) :
  old <> "" -> String.length s <= n -> String.length s <= m ->
  replace_go n old new s = replace_go m old new s.
Proof.
  intros Hne. revert m s. induction n as [|n IH]; intros m s Hn Hm.
  - destruct s; [|simpl in Hn; lia].
    destruct m; cbn [replace_go]; [reflexivity|]. by rewrite (split_once_empty old Hne).
  - cbn [replace_go]. destruct (split_once old s) as [[a b]|] eqn:Es.
    + pose proof (split_once_shorter old s a b Hne Es) as Hlt.
      destruct m as [|m]; [lia|]. cbn [replace_go]. rewrite Es. do 2 f_equal. apply IH; lia.
    + destruct m; cbn [replace_go]; [reflexivity | by rewrite Es].
Qed.

Lemma replace_found (old new s a b : string) :
  old <> "" -> split_once old s = Some (a, b) ->
  replace old new s = a +:+ new +:+ replace old new b.
Proof.
  intros Hne Hs. unfold replace.
  pose proof (split_once_shorter old s a b Hne Hs) as Hlt.
  destruct (String.length s) as [|n] eqn:En; [lia|].
  cbn [replace_go]. rewrite Hs. do 2 f_equal. apply replace_go_fuel; [exact Hne | lia | lia].
Qed.

Lemma replace_absent (old new s : string) :
  split_once old s = None -> replace old new s = s.
Proof.
  intros Hs. unfold replace. destruct (String.length s); cbn [replace_go]; [reflexivity|].
  by rewrite Hs.
Qed.

Lemma split_once_skip (old s : string) (c : ascii) :
  ~ In c (chars old) -> old <> "" ->
  split_once old (String c s)
  = match split_once old s with
    | Some (a, b) => Some (String c a, b)
    | None => None
    end.
Proof.
  intros Hc Hne. cbn [split_once].
  destruct old as [|d old']; [by destruct Hne|]. cbn [strip_prefix].
  destruct (Ascii.eqb_spec d c) as [->|Hdc]; [simpl in Hc; tauto | reflexivity].
Qed.

Lemma replace_skip (old new s : string) (c : ascii) :
  ~ In c (chars old) -> old <> "" ->
  replace old new (String c s) = String c (replace old new s).
Proof.
  intros Hc Hne. destruct (split_once old s) as [[a b]|] eqn:Es.
  - rewrite (replace_found old new (String c s) (String c a) b Hne)
      by (rewrite split_once_skip by assumption; by rewrite Es).
    by rewrite (replace_found old new s a b Hne Es).
  - rewrite (replace_absent old new (String c s))
      by (rewrite split_once_skip by assumption; by rewrite Es).
    by rewrite (replace_absent old new s Es).
Qed.

(** X17.  The request forwarded to the origin begins with the line
    [GET path HTTP/1.1] followed at once by the line feed that ended the
    first line of the client: the method and version of the client are
    replaced whatever they were, and a carriage return the client sent before
    the line feed belongs to the replaced line and is gone.  What follows is
    the rest of the request, in which every further occurrence of the first
    line is replaced too; when there is none, the rest is unchanged. *)
Theorem remote_request_first_line (first_line more path : string) :
  first_line <> "" ->
  ~ In LF (chars first_line) ->
  remote_request (first_line +:+ String LF more) first_line path
  = ("GET " +:+ path +:+ " HTTP/1.1")
    +:+ String LF (replace first_line ("GET " +:+ path +:+ " HTTP/1.1") more)
  /\ (~ occurs_in first_line more ->
      remote_request (first_line +:+ String LF more) first_line path
      = ("GET " +:+ path +:+ " HTTP/1.1") +:+ String LF more).
Proof.
  intros Hne Hlf. unfold remote_request.
  assert (split_once first_line (first_line +:+ String LF more) = Some ("", String LF more))
    as Hs.
  { assert (strip_prefix first_line (first_line +:+ String LF more) = Some (String LF more))
      as E by by apply strip_prefix_Some.
    destruct first_line; [by destruct Hne|]. rewrite sapp_cons in *.
    cbn [split_once]. by rewrite E. }
  rewrite (replace_found _ _ _ _ _ Hne Hs), sapp_nil_l.
  rewrite (replace_skip _ _ more LF Hlf Hne). split; [reflexivity|].
  intros Hno%split_once_None. by rewrite (replace_absent _ _ _ Hno).
Qed.

(** A [POST] request with CR LF line ends: the forwarded request line is a
    [GET] line that ends with a lone line feed. *)
Lemma remote_request_first_line_witness :
  remote_request sample_request ("POST http://example.com/a HTTP/1.0" +:+ String CR "") "/a"
  = "GET /a HTTP/1.1" +:+ String LF ("Host: example.com" +:+ CRLFCRLF).
Proof.
  apply (proj2 (remote_request_first_line
                  ("POST http://example.com/a HTTP/1.0" +:+ String CR "")
                  ("Host: example.com" +:+ CRLFCRLF) "/a"
                  ltac:(discriminate) ltac:(vm_compute; intuition discriminate))).
  by apply contains_false.
Defined.

(** ** The target of a prefetch *)

Section PrefetchTarget.
Context `{PyRuntime}.

(** X18.  [prefetch_resource] takes host and port from the network location
    of its URL.  Without a colon the port is 80.  With a colon, the text
    after the first colon must be an integer literal: its value is the port,
    and a text that is none makes the prefetch fail with [ValueError], where
    [extract_server_info] answers the same host and port text with port
    80. *)
Theorem prefetch_target_port (url : string) (parsed_url : ParseResult) :
  urlparse url = Some parsed_url ->
  (~ In ":"%char (chars (netloc parsed_url)) ->
     exists url_path, prefetch_target url = Ok (netloc parsed_url, 80%Z, url_path))
  /\ (forall hostname port_str,
        netloc parsed_url = hostname +:+ ":" +:+ port_str ->
        ~ In ":"%char (chars hostname) ->
        (forall port, py_int port_str = Some port ->
           exists url_path, prefetch_target url = Ok (hostname, port, url_path))
        /\ (py_int port_str = None ->
            prefetch_target url = Raise ValueError
            /\ (~ In "/"%char (chars hostname) -> ~ In "/"%char (chars port_str) ->
                extract_server_info (hostname +:+ ":" +:+ port_str) = (hostname, 80%Z, "/")))).
Proof.
  intros Hp. unfold prefetch_target. rewrite Hp. simpl. split.
  - intros Hno. exists (if bool_decide (path parsed_url = "") then "/" else path parsed_url).
    assert (contains ":" (netloc parsed_url) = false) as ->; [|reflexivity].
    apply contains_false. intros Ho%occurs_chars_In. tauto.
  - intros hostname port_str Hnet Hhost.
    assert (split_once ":" (netloc parsed_url) = Some (hostname, port_str)) as Hs.
    { rewrite Hnet. by apply (split_once_head_absent ":" "" hostname port_str). }
    assert (contains ":" (netloc parsed_url) = true) as Hc.
    { apply contains_true. exists hostname, port_str. exact Hnet. }
    rewrite Hc, Hs. split.
    + intros port ->. eexists. reflexivity.
    + intros Hnone. rewrite Hnone. split; [reflexivity|].
      intros Hh Hps.
      assert (~ In "/"%char (chars (hostname +:+ ":" +:+ port_str))) as Hall.
      { rewrite !chars_app, !in_app_iff. simpl. intros [?|[[[=]|[]]|?]]; tauto. }
      rewrite <- Hnet in *. rewrite extract_server_info_plain.
      * rewrite (proj2 (split_once_None _ _)) by (intros Ho%occurs_chars_In; tauto).
        cbv zeta. rewrite Hs. by rewrite Hnone.
      * intros Ho. apply Hall. apply (occurs_in_chars "://" _ "/"%char Ho). simpl. tauto.
Qed.

End PrefetchTarget.

Lemma prefetch_target_port_witness :
  urlparse "http://ex.com:80a/x"
  = Some {| scheme := "http"; netloc := "ex.com:80a"; path := "/x" |}
  /\ prefetch_target "http://ex.com:80a/x" = Raise ValueError
  /\ extract_server_info ("ex.com" +:+ ":" +:+ "80a") = ("ex.com", 80%Z, "/").
Proof.
  assert (urlparse "http://ex.com:80a/x"
          = Some {| scheme := "http"; netloc := "ex.com:80a"; path := "/x" |}) as Hp
    by (vm_compute; reflexivity).
  split; [exact Hp|].
  destruct (proj2 (proj2 (prefetch_target_port "http://ex.com:80a/x" _ Hp)
                     "ex.com" "80a" eq_refl ltac:(vm_compute; intuition discriminate))
              ltac:(vm_compute; reflexivity)) as [Hraise Hinfo].
  split; [exact Hraise|].
  apply Hinfo; vm_compute; intuition discriminate.
Defined.

(** ** Line ends and task counts *)

(** X19.  A content without any carriage return, such as a response whose
    lines end in a lone line feed, gives the empty mapping: header lines are
    only recognised between CR LF pairs. *)
Theorem extract_headers_from_content_needs_CR (content : string) :
  ~ In CR (chars content) ->
  extract_headers_from_content content = ∅.
Proof.
  intros Hno. unfold extract_headers_from_content.
  destruct (split_once CRLFCRLF content) as [[a b]|] eqn:Es; [|reflexivity].
  destruct Hno. apply (occurs_in_chars CRLFCRLF); [|by left].
  exists a, b. by apply split_once_Some.
Qed.

Lemma extract_headers_from_content_needs_CR_witness :
  extract_headers_from_content bare_lf_content = ∅.
Proof.
  apply extract_headers_from_content_needs_CR. vm_compute. intuition discriminate.
Defined.


Section PrefetchCount.
Context `{PyRuntime}.


End PrefetchCount.


(** ** Worked examples for the statements without premises at the top *)

Lemma generate_cache_filename_collide_witness :
  Forall2 key_alike (chars "http://a.com/x") (chars "http://a_com_x").
Proof. apply generate_cache_filename_collide. reflexivity. Defined.

Lemma is_cache_valid_raises_iff_witness :
  is_cache_valid (demo_clock 1000) (max_age_headers "abc") = Raise ValueError
  /\ is_cache_valid (demo_clock 1000)
       {[ "Expires" := "Thu, 01 Jan 2099 00:00:00 +99999999999999" ]}
     = Raise OverflowError.
Proof.
  split; apply is_cache_valid_raises_iff.
  - right. split; [reflexivity|]. split; [reflexivity|].
    exists "public, max-age=60", "60".
    split; [reflexivity|]. split; [by apply contains_false|]. split; [by apply contains_false|].
    split; [reflexivity|]. right. exists "abc". split; reflexivity.
  - left. exists "Thu, 01 Jan 2099 00:00:00 +99999999999999".
    split; [reflexivity|]. split; [reflexivity|]. split; discriminate.
Defined.

Lemma is_cache_valid_true_iff_witness :
  is_cache_valid (demo_clock 1000) (max_age_headers "941") = Ok true.
Proof.
  apply is_cache_valid_true_iff. right. split; [reflexivity|].
  exists "public, max-age=60", "60", "941", 941%Z.
  split; [reflexivity|]. split; [by apply contains_false|]. split; [by apply contains_false|].
  split; [reflexivity|]. split; [apply Nat.leb_le; reflexivity|].
  split; [reflexivity|]. split; reflexivity.
Defined.
